(** * Tariff Tracker dashboard: the table pipeline of [main.py]

    A shallow embedding of the data path of the dashboard script:
    [clean_numeric], the synthetic sample data, the Region / Category
    filter block and the category pricing table.

    Conventions of the model.
    - A pandas [DataFrame] is a row count (its index) and a finite map from
      column labels to columns; a column ([Series]) is a list of cells.
    - A cell is a text, a number or [None].  A text is its string of
      bytes.  A number is a float64; an int64 cell is the float64 of the
      same value, as [5 == 5.0] in Python.
    - float64 is IEEE 754 binary64, [spec_float] of the standard library
      with precision 53 and exponent bound 1024: every operation rounds to
      nearest, ties to even, and overflows to an infinity.
    - The library functions the script calls are transcribed from pandas
      and CPython: the converter [precise_xstrtod] behind [pd.to_numeric],
      [repr] of a float behind [astype(str)], the compensated sum of
      [group_mean] behind [groupby(...).mean()].
    - An exception raised by pandas is a value [Raise _] of the result
      type; the statements that follow a raising statement do not run. *)

From Stdlib Require Import ZArith Ascii String List Lia Sorted.
From Stdlib Require Import Floats.SpecFloat.
From stdpp Require Import gmap strings list fin_maps sorting.

Local Open Scope string_scope.

(* stdpp keeps [simpl] from unfolding the concatenation of texts. *)
Local Arguments String.append !_ _ / : simpl nomatch.

(* ===================================================================== *)
(** ** Numbers *)
(* ===================================================================== *)

(** A float64 value, IEEE 754 binary64: a zero or an infinity with its
    sign, NaN, or the finite value [(-1)^s * m * 2^e]. *)
Abbreviation number := spec_float.

Global Instance number_eq_dec : EqDecision number.
Proof. solve_decision. Defined.

(** The precision and the exponent bound of binary64. *)
Definition prec : Z := 53.
Definition emax : Z := 1024.

Definition nan : number := S754_nan.
Definition inf (neg : bool) : number := S754_infinity neg.
Definition fzero : number := S754_zero false.

Definition is_nan (x : number) : bool :=
  match x with S754_nan => true | _ => false end.

Definition is_inf (x : number) : bool :=
  match x with S754_infinity _ => true | _ => false end.


(** The operations of float64, each result rounded to nearest, ties to
    even. *)
Definition fadd (x y : number) : number := SFadd prec emax x y.
Definition fsub (x y : number) : number := SFsub prec emax x y.
Definition fmul (x y : number) : number := SFmul prec emax x y.
Definition fdiv (x y : number) : number := SFdiv prec emax x y.
Definition fneg (x : number) : number := SFopp x.

(** [float(n)] for an integer [n]. *)
Definition of_int (n : Z) : number := binary_normalize prec emax n 0 false.

(** The float64 nearest to [n / d], for positive [n] and [d]. *)
Definition nearest_ratio (n d : positive) : number :=
  SFdiv prec emax (S754_finite false n 0) (S754_finite false d 0).

(** The float64 nearest to [m * 10^e]: the value of a decimal literal of
    the source, and of [float(text)]. *)
Definition decimal (m e : Z) : number :=
  if (0 <=? e)%Z then of_int (m * 10 ^ e)
  else
    match m with
    | Z0 => fzero
    | Zpos p => nearest_ratio p (Z.to_pos (10 ^ (- e)))
    | Zneg p => fneg (nearest_ratio p (Z.to_pos (10 ^ (- e))))
    end.

(** [x == y] on float64: by value, the two zeros are equal and NaN equals
    nothing. *)
Definition num_eqb (x y : number) : bool := SFeqb x y.

(** Three-way comparison of two numbers that are not NaN. *)
Definition num_compare (x y : number) : comparison :=
  match SFcompare x y with
  | Some c => c
  | None => Gt
  end.

(* ===================================================================== *)
(** ** Text: [str.replace], decimal digits *)
(* ===================================================================== *)

(** [s.replace(old, new)] for a pattern [old] of one character. *)
Fixpoint str_replace (old : ascii) (new : string) (s : string) : string :=
  match s with
  | EmptyString => EmptyString
  | String c s' =>
      if Ascii.eqb c old then new ++ str_replace old new s'
      else String c (str_replace old new s')
  end.

Definition is_digit (c : ascii) : bool :=
  let n := nat_of_ascii c in (48 <=? n)%nat && (n <=? 57)%nat.

Definition digit_val (c : ascii) : Z := (Z.of_nat (nat_of_ascii c) - 48)%Z.

Definition digit_char (d : Z) : ascii := ascii_of_nat (48 + Z.to_nat d).

Fixpoint digits_go (fuel : nat) (n : Z) (acc : string) : string :=
  let acc' := String (digit_char (n mod 10)%Z) acc in
  match fuel with
  | O => acc'
  | S f => if (n <? 10)%Z then acc' else digits_go f (n / 10)%Z acc'
  end.

(** Decimal digits of a natural number, most significant first. *)
Definition digits_of (n : Z) : string := digits_go (Z.to_nat (Z.log2 n)) n "".

Fixpoint zeros (n : nat) : string :=
  match n with O => "" | S k => String "0" (zeros k) end.

Fixpoint str_take (n : nat) (s : string) : string :=
  match n, s with
  | S k, String c s' => String c (str_take k s')
  | _, _ => ""
  end.

Fixpoint str_drop (n : nat) (s : string) : string :=
  match n, s with
  | S k, String _ s' => str_drop k s'
  | _, _ => s
  end.

Fixpoint lower (s : string) : string :=
  match s with
  | EmptyString => EmptyString
  | String c s' =>
      let n := nat_of_ascii c in
      String (if (65 <=? n)%nat && (n <=? 90)%nat then ascii_of_nat (n + 32) else c)
             (lower s')
  end.

(* ===================================================================== *)
(** ** [str(x)] of a float *)
(* ===================================================================== *)

(** Removal of the trailing zeros of a run of digits [m], kept as the
    number [m * 10^e]; [fuel] bounds the number of zeros. *)
Fixpoint strip10 (fuel : nat) (m e : Z) : Z * Z :=
  match fuel with
  | O => (m, e)
  | S f => if (m mod 10 =? 0)%Z then strip10 f (m / 10)%Z (e + 1)%Z else (m, e)
  end.

(** The positive value [m * 2^e] as a fraction of two integers. *)
Definition fraction (m : positive) (e : Z) : Z * Z :=
  if (0 <=? e)%Z then (Zpos m * 2 ^ e, 1)%Z else (Zpos m, 2 ^ (- e))%Z.

(** [q * 10^k] for a fraction [q]. *)
Definition scale10 (q : Z * Z) (k : Z) : Z * Z :=
  if (0 <=? k)%Z then (q.1 * 10 ^ k, q.2)%Z else (q.1, q.2 * 10 ^ (- k))%Z.

(** The place of the decimal point of a positive fraction [q]: the [decpt]
    with [10^(decpt-1) <= q < 10^decpt].  For [q >= 1] it is the number of
    digits of the integer part; for [q < 1], which is no power of ten as
    its denominator is a power of two, [1/q] lies strictly between
    [10^(j-1)] and [10^j] for the number [j] of digits of its integer
    part. *)
Definition decimal_point (q : Z * Z) : Z :=
  if (q.2 <=? q.1)%Z then Z.of_nat (String.length (digits_of (q.1 / q.2)))
  else (1 - Z.of_nat (String.length (digits_of (q.2 / q.1))))%Z.

(** The run of [n] digits nearest to the positive [x], a fraction [q]
    with its point at [decpt], among the runs that read back as [x]: the
    digits below [x], the digits above, the nearer of the two when both
    read back, none when neither does. *)
Definition digits_reading_back (x : number) (q : Z * Z) (decpt n : Z) : option Z :=
  let s := scale10 q (n - decpt) in
  let lo := (s.1 / s.2)%Z in
  let hi := (lo + 1)%Z in
  let below := bool_decide (decimal lo (decpt - n) = x) in
  let above := bool_decide (decimal hi (decpt - n) = x) in
  let nearer :=
    match (2 * (s.1 mod s.2) ?= s.2)%Z with
    | Lt => lo
    | Gt => hi
    | Eq => if Z.even lo then lo else hi
    end in
  if below && above then Some nearer
  else if below then Some lo
  else if above then Some hi
  else None.

(** The shortest run of digits that reads back as [x], tried from [n]
    digits on; 17 digits always read back. *)
Fixpoint shortest_digits (x : number) (q : Z * Z) (decpt : Z) (fuel : nat) (n : Z)
  : Z * Z :=
  match fuel with
  | O =>
      let s := scale10 q (n - decpt) in
      (match (2 * (s.1 mod s.2) ?= s.2)%Z with
       | Lt => s.1 / s.2
       | Gt => s.1 / s.2 + 1
       | Eq => if Z.even (s.1 / s.2) then s.1 / s.2 else s.1 / s.2 + 1
       end, decpt - n)%Z
  | S f =>
      match digits_reading_back x q decpt n with
      | Some d => (d, decpt - n)%Z
      | None => shortest_digits x q decpt f (n + 1)%Z
      end
  end.

(** The exponent suffix of a float in scientific notation: a sign and at
    least two digits, [e+16], [e-05]. *)
Definition repr_exponent (x : Z) : string :=
  let d := digits_of (Z.abs x) in
  "e" ++ (if (x <? 0)%Z then "-" else "+")
      ++ (if (Z.abs x <? 10)%Z then "0" else "") ++ d.

(** [repr] of the positive finite value [0.D * 10^decpt], where [D] is the
    digit string [d]: positional notation for [-4 < decpt <= 16], scientific
    notation otherwise. *)
Definition repr_digits (d : string) (decpt : Z) : string :=
  let n := Z.of_nat (String.length d) in
  if ((decpt <=? -4) || (16 <? decpt))%Z then
    str_take 1 d
      ++ (if (1 <? n)%Z then "." ++ str_drop 1 d else "")
      ++ repr_exponent (decpt - 1)
  else if (decpt <=? 0)%Z then
    "0." ++ zeros (Z.to_nat (- decpt)) ++ d
  else if (decpt <? n)%Z then
    str_take (Z.to_nat decpt) d ++ "." ++ str_drop (Z.to_nat decpt) d
  else
    d ++ zeros (Z.to_nat (decpt - n)) ++ ".0".

(** Python's [str(x)] for a float [x]: the shortest digits that read back
    as [x]. *)
Definition float_str (x : number) : string :=
  match x with
  | S754_nan => "nan"
  | S754_infinity false => "inf"
  | S754_infinity true => "-inf"
  | S754_zero false => "0.0"
  | S754_zero true => "-0.0"
  | S754_finite s m e =>
      let q := fraction m e in
      let '(d, x10) :=
        shortest_digits (S754_finite false m e) q (decimal_point q) 16 1 in
      let '(d, x10) := strip10 17 d x10 in
      let ds := digits_of d in
      (if s then "-" else "")
        ++ repr_digits ds (Z.of_nat (String.length ds) + x10)
  end.

(* ===================================================================== *)
(** ** The numeric parser of [pd.to_numeric] *)
(* ===================================================================== *)

(** [isspace_ascii(c)]: the blank and the characters from TAB to CR. *)
Definition isspace_ascii (c : ascii) : bool :=
  let n := nat_of_ascii c in
  (n =? 32)%nat || ((9 <=? n)%nat && (n <=? 13)%nat).

Definition toupper_ascii (c : ascii) : ascii :=
  let n := nat_of_ascii c in
  if (97 <=? n)%nat && (n <=? 122)%nat then ascii_of_nat (n - 32) else c.

Fixpoint skip_spaces (p : string) : string :=
  match p with
  | String c r => if isspace_ascii c then skip_spaces r else p
  | EmptyString => p
  end.

Fixpoint skip_digits (p : string) : string :=
  match p with
  | String c r => if is_digit c then skip_digits r else p
  | EmptyString => p
  end.

(** An optional sign: the sign read ([true] for minus) and the rest. *)
Definition read_sign (p : string) : bool * string :=
  match p with
  | String "-" r => (true, r)
  | String "+" r => (false, r)
  | _ => (false, p)
  end.

(** The text as C reads it, up to the first NUL character. *)
Fixpoint c_string (s : string) : string :=
  match s with
  | EmptyString => EmptyString
  | String c r => if Ascii.eqb c "000" then EmptyString else String c (c_string r)
  end.

(** C's [int], 32 bits.  An exponent of ten digits or more overflows it;
    the compiled converter wraps around, and so does this function. *)
Definition int32 (z : Z) : Z := ((z + 2 ^ 31) mod 2 ^ 32 - 2 ^ 31)%Z.

Definition max_digits : nat := 17.

(** The table [e[]] of the powers of ten, [1e0] to [1e308]. *)
Definition e_table (k : Z) : number := of_int (10 ^ k).

(** [number = number * 10. + (c - '0')], with [num] for the variable
    [number]: a product and a sum, each rounded. *)
Definition push_digit (num : number) (c : ascii) : number :=
  fadd (fmul num (of_int 10)) (of_int (digit_val c)).

(** The digits before the point: the first 17 go into [num], each
    later one adds one to [exponent]. *)
Fixpoint read_integer (p : string) (num : number) (num_digits : nat)
    (exponent : Z) : number * nat * Z * string :=
  match p with
  | String c r =>
      if is_digit c then
        if (num_digits <? max_digits)%nat
        then read_integer r (push_digit num c) (S num_digits) exponent
        else read_integer r num num_digits (int32 (exponent + 1))
      else (num, num_digits, exponent, p)
  | EmptyString => (num, num_digits, exponent, p)
  end.

(** The digits after the point, as long as fewer than 17 digits are
    read. *)
Fixpoint read_decimals (p : string) (num : number) (num_digits : nat)
    (num_decimals : nat) : number * nat * nat * string :=
  match p with
  | String c r =>
      if (num_digits <? max_digits)%nat && is_digit c
      then read_decimals r (push_digit num c) (S num_digits) (S num_decimals)
      else (num, num_digits, num_decimals, p)
  | EmptyString => (num, num_digits, num_decimals, p)
  end.

(** The digits of the exponent, 17 at most. *)
Fixpoint read_exponent (p : string) (n : Z) (num_digits : nat)
  : Z * nat * string :=
  match p with
  | String c r =>
      if (num_digits <? max_digits)%nat && is_digit c
      then read_exponent r (int32 (n * 10 + digit_val c)) (S num_digits)
      else (n, num_digits, p)
  | EmptyString => (n, num_digits, p)
  end.

(** The outcome of [precise_xstrtod]: the value returned, whether [*error]
    was set, the text left at [*endptr], and [*maybe_int]. *)
Record xstrtod : Type := mk_xstrtod {
  xvalue : number;
  xerror : bool;
  xend : string;
  maybe_int : bool
}.

(** [precise_xstrtod(str, &endptr, '.', 'E', '\0', 1, &error, &maybe_int)],
    the converter of pandas' [tokenizer.c]. *)
Definition precise_xstrtod (str : string) : xstrtod :=
  let p := skip_spaces str in
  let '(negative, p) := read_sign p in
  let '(num, num_digits, exponent, p) := read_integer p fzero 0 0 in
  let '(num, num_digits, exponent, p, maybe_int) :=
    match p with
    | String "." r =>
        let '(num, num_digits, num_decimals, r) :=
          read_decimals r num num_digits 0 in
        let r := if (max_digits <=? num_digits)%nat then skip_digits r else r in
        (num, num_digits, int32 (exponent - Z.of_nat num_decimals), r, false)
    | _ => (num, num_digits, exponent, p, true)
    end in
  if (num_digits =? 0)%nat then mk_xstrtod fzero true p maybe_int
  else
    let num := if negative then fneg num else num in
    let '(exponent, p, maybe_int) :=
      match p with
      | String c r =>
          if Ascii.eqb (toupper_ascii c) "E" then
            let '(negative, r1) := read_sign r in
            let '(n, num_digits, r2) := read_exponent r1 0 0 in
            let exponent :=
              int32 (if negative then exponent - n else exponent + n) in
            (* without a digit after the [e], one character is given back *)
            let back :=
              match r with String "-" _ | String "+" _ => r | _ => p end in
            (exponent, if (num_digits =? 0)%nat then back else r2, false)
          else (exponent, p, maybe_int)
      | EmptyString => (exponent, p, maybe_int)
      end in
    if (308 <? exponent)%Z then mk_xstrtod (inf false) true p maybe_int
    else
      let num :=
        if (0 <? exponent)%Z then fmul num (e_table exponent)
        else if (exponent <? -308)%Z then
          if (exponent <? -616)%Z then fzero
          else fdiv (fdiv num (e_table (-308 - exponent))) (e_table 308)
        else fdiv num (e_table (- exponent)) in
      mk_xstrtod num (is_inf num) (skip_spaces p) maybe_int.

(** [to_double]: the value when no error was set and the whole text was
    read. *)
Definition to_double (item : string) : option (number * bool) :=
  let r := precise_xstrtod item in
  if negb (xerror r) && bool_decide (xend r = "")
  then Some (xvalue r, maybe_int r)
  else None.

(** The spellings of the infinities [floatify] accepts, in any case. *)
Definition parse_infinity (s : string) : option number :=
  let t := lower s in
  if (String.eqb t "inf" || String.eqb t "+inf"
      || String.eqb t "infinity" || String.eqb t "+infinity")%bool
  then Some (inf false)
  else if (String.eqb t "-inf" || String.eqb t "-infinity")%bool
  then Some (inf true)
  else None.

(** [floatify]: the float a text spells and whether it may be an integer;
    [None] when it raises [ValueError]. *)
Definition floatify (s : string) : option (number * bool) :=
  let data := c_string s in
  match to_double data with
  | Some r => Some r
  | None =>
      match parse_infinity data with
      | Some x => Some (x, false)
      | None => None
      end
  end.

(** The value [pd.to_numeric(..., errors="coerce")] gives to one text: the
    number it spells, NaN when it spells none.  A text that may be an
    integer also goes through [int(text)], which refuses a text with a NUL
    character. *)
Definition to_numeric_str (s : string) : number :=
  match floatify s with
  | Some (x, maybe_int) =>
      if maybe_int && negb (String.eqb (c_string s) s) then nan else x
  | None => nan
  end.

(* ===================================================================== *)
(** ** Cells, columns and frames *)
(* ===================================================================== *)

(** One cell of a table: a text, a number or Python's [None].  The missing
    value of a numeric column is the number NaN. *)
Inductive cell : Type :=
  | CStr (s : string)
  | CNum (x : number)
  | CNone.

Global Instance cell_eq_dec : EqDecision cell.
Proof. solve_decision. Defined.

Abbreviation Series := (list cell).

(** A [DataFrame]: the length of its index and its columns by label. *)
Record DataFrame : Type := mkDF {
  nrows : nat;
  columns : gmap string Series
}.

(** Every column has one cell per row. *)
Definition rectangular (df : DataFrame) : Prop :=
  map_Forall (fun _ s => length s = nrows df) (columns df).

(** [col in df.columns] *)
Definition has_column (df : DataFrame) (col : string) : bool :=
  bool_decide (is_Some (columns df !! col)).

(** [df[col]] on a frame that has the column. *)
Definition get_column (df : DataFrame) (col : string) : Series :=
  default [] (columns df !! col).

(** [df[col] = s] *)
Definition set_column (df : DataFrame) (col : string) (s : Series) : DataFrame :=
  mkDF (nrows df) (<[col := s]> (columns df)).

(** [pd.isna]: [None] and NaN are the missing values. *)
Definition isna (c : cell) : bool :=
  match c with
  | CNone => true
  | CNum x => is_nan x
  | CStr _ => false
  end.

(** [a == b] on two cells, as the elementwise comparison of a column with a
    scalar computes it: texts are equal when they are the same text, numbers
    when they have the same value, a text never equals a number, and a
    missing value equals nothing. *)
Definition cell_eqb (a b : cell) : bool :=
  match a, b with
  | CStr s, CStr t => String.eqb s t
  | CNum x, CNum y => num_eqb x y
  | _, _ => false
  end.

(* ----------------------------------------------------------------- *)
(** *** Exceptions *)

Inductive exn : Type :=
  | KeyError (missing : list string)
  | ValueError
  | TypeError.

Inductive result (A : Type) : Type :=
  | Ok (a : A)
  | Raise (e : exn).
Arguments Ok {A} a.
Arguments Raise {A} e.

Definition bind {A B : Type} (r : result A) (f : A -> result B) : result B :=
  match r with
  | Ok a => f a
  | Raise e => Raise e
  end.

Notation "x <- r ;; k" := (bind r (fun x => k))
  (at level 100, r at next level, right associativity).

(* ===================================================================== *)
(** ** [clean_numeric] *)
(* ===================================================================== *)

(** [str(c)] of one cell, the work of [Series.astype(str)].  A number is
    written as a float; an int64 cell, which pandas writes without the
    final [.0], reads back as the same number. *)
Definition cell_str (c : cell) : string :=
  match c with
  | CStr s => s
  | CNum x => float_str x
  | CNone => "None"
  end.

Definition astype_str (s : Series) : list string := map cell_str s.

(** [Series.str.replace(old, new)] *)
Definition series_str_replace (old : ascii) (new : string) (s : list string)
  : list string := map (str_replace old new) s.

(** [pd.to_numeric(s, errors="coerce")] on a column of texts. *)
Definition to_numeric (s : list string) : Series :=
  map (fun t => CNum (to_numeric_str t)) s.

(** [Series.fillna(v)] *)
Definition fillna (v : cell) (s : Series) : Series :=
  map (fun c => if isna c then v else c) s.

(** The body of the [for] loop for one column name: the two assignments
    to [df[col]], the texts and then the numbers. *)
Definition clean_column (df : DataFrame) (col : string) : DataFrame :=
  if has_column df col then
    let s := series_str_replace " " ""
               (series_str_replace "," "" (astype_str (get_column df col))) in
    let df := set_column df col (to_numeric s) in
    df
  else df.

(** The [for col in numeric_cols] loop. *)
Definition clean_loop (df : DataFrame) (numeric_cols : list string) : DataFrame :=
  fold_left clean_column numeric_cols df.

(** [df[cols]] for a list of labels: every label has to be a column, or
    pandas raises [KeyError] with the labels that are not.  A label
    repeated in [cols] would give a frame with that column twice; a frame
    of the model has one column per label, and [setitem_list] refuses the
    repeated label. *)
Definition getitem_list (df : DataFrame) (cols : list string) : result DataFrame :=
  match List.filter (fun c => negb (has_column df c)) cols with
  | [] => Ok (mkDF (nrows df)
                (filter (fun kv => kv.1 ∈ cols) (columns df)))
  | missing => Raise (KeyError missing)
  end.

(** [df.fillna(v)] on a frame. *)
Definition frame_fillna (v : cell) (df : DataFrame) : DataFrame :=
  mkDF (nrows df) (fillna v <$> columns df).

(** [df[cols] = value] for a list of labels and a frame [value]: column by
    column, [df[k] = value[k]].  With a label twice in [cols], [value[k]]
    is two columns wide and pandas raises [ValueError] ("Columns must be
    same length as key"). *)
Definition setitem_list (df : DataFrame) (cols : list string) (value : DataFrame)
  : result DataFrame :=
  if bool_decide (NoDup cols) then
    Ok (fold_left (fun d k => set_column d k (get_column value k)) cols df)
  else Raise ValueError.

(** [clean_numeric(df, numeric_cols)], lines 27-39. *)
Definition clean_numeric (df : DataFrame) (numeric_cols : list string)
  : result DataFrame :=
  let df := clean_loop df numeric_cols in
  sub <- getitem_list df numeric_cols ;;
  df <- setitem_list df numeric_cols (frame_fillna (CNum fzero) sub) ;;
  Ok df.

(** [numeric_cols], line 76. *)
Definition numeric_cols : list string := ["Production"; "AvgPrice"; "Sellout"].

(* ===================================================================== *)
(** ** Sidebar options and the filter block *)
(* ===================================================================== *)

(** [Series.dropna()] *)
Definition dropna (s : Series) : Series := List.filter (fun c => negb (isna c)) s.

(** [Series.unique()]: the distinct values by first appearance. *)
Fixpoint unique (s : Series) : Series :=
  match s with
  | [] => []
  | c :: r => c :: List.filter (fun d => negb (cell_eqb d c)) (unique r)
  end.

(** Order of two cells that are not missing: numbers by value, texts by
    code point, and (where pandas sorts group keys of both kinds) numbers
    before texts. *)
Definition cell_compare (a b : cell) : comparison :=
  match a, b with
  | CNum x, CNum y => num_compare x y
  | CStr s, CStr t => String.compare s t
  | CNum _, CStr _ => Lt
  | CStr _, CNum _ => Gt
  | CNone, CNone => Eq
  | CNone, _ => Gt
  | _, CNone => Lt
  end.

Definition is_text (c : cell) : bool :=
  match c with CStr _ => true | _ => false end.

Fixpoint insert_sorted (c : cell) (l : list cell) : list cell :=
  match l with
  | [] => [c]
  | d :: r =>
      match cell_compare c d with
      | Gt => d :: insert_sorted c r
      | _ => c :: l
      end
  end.

(** Python's [sorted] on a list of cells: [<] between a text and a number
    raises [TypeError]. *)
Definition py_sorted (l : list cell) : result (list cell) :=
  if forallb is_text l || forallb (fun c => negb (is_text c)) l
  then Ok (fold_right insert_sorted [] l)
  else Raise TypeError.

(** The options of a select box, lines 91-93 and 96-98. *)
Definition options (sentinel col : string) (df : DataFrame) : result (list cell) :=
  if has_column df col then
    vals <- py_sorted (unique (dropna (get_column df col))) ;;
    Ok (CStr sentinel :: vals)
  else Ok [CStr sentinel].

(** [regions], lines 91-93, and [categories], lines 96-98. *)
Definition regions (df : DataFrame) : result (list cell) :=
  options "All Regions" "Region" df.

Definition categories (df : DataFrame) : result (list cell) :=
  options "All Categories" "Category" df.

(** [s == v] for a column and a scalar: the boolean mask. *)
Definition series_eq (s : Series) (v : cell) : list bool :=
  map (fun c => cell_eqb c v) s.

(** The entries of [s] at the positions where [mask] is true. *)
Fixpoint mask_select {A : Type} (mask : list bool) (s : list A) : list A :=
  match mask, s with
  | b :: mask', x :: s' =>
      if b then x :: mask_select mask' s' else mask_select mask' s'
  | _, _ => []
  end.

Definition count_true (mask : list bool) : nat :=
  length (List.filter id mask).

(** [df[mask]]: the rows where the mask is true, in every column. *)
Definition getitem_mask (df : DataFrame) (mask : list bool) : DataFrame :=
  mkDF (count_true mask) (mask_select mask <$> columns df).

(** One [if] of the filter block: [if choice != sentinel and col in
    df.columns: df = df[df[col] == choice]]. *)
Definition filter_by (col sentinel : string) (choice : cell) (df : DataFrame)
  : DataFrame :=
  if negb (cell_eqb choice (CStr sentinel)) && has_column df col then
    getitem_mask df (series_eq (get_column df col) choice)
  else df.

(** The filter block, lines 103-107. *)
Definition apply_filters (df : DataFrame) (region category : cell) : DataFrame :=
  let df := filter_by "Region" "All Regions" region df in
  let df := filter_by "Category" "All Categories" category df in
  df.

(** The rows of a frame, each a map from column label to cell. *)
Definition row_at (df : DataFrame) (i : nat) : gmap string cell :=
  omap (fun s : Series => s !! i) (columns df).

Definition rows (df : DataFrame) : list (gmap string cell) :=
  map (row_at df) (seq 0 (nrows df)).

(* ===================================================================== *)
(** ** The category pricing table *)
(* ===================================================================== *)

(** The running state of one group in [group_mean]: the sum, the
    compensation of Kahan's summation and the number of values seen. *)
Record accumulator : Type := mk_acc {
  sumx : number;
  compensation : number;
  nobs : nat
}.

Definition acc0 : accumulator := mk_acc fzero fzero 0.

(** One value added to its group, the body of the loop of [group_mean]:
    [y = val - compensation; t = sumx + y; compensation = t - sumx - y],
    the compensation set back to zero when it is NaN, then [sumx = t]. *)
Definition kahan_add (a : accumulator) (val : number) : accumulator :=
  let y := fsub val (compensation a) in
  let t := fadd (sumx a) y in
  let c := fsub (fsub t (sumx a)) y in
  mk_acc t (if is_nan c then fzero else c) (S (nobs a)).

(** One cell of the value column: a missing value is skipped. *)
Definition observe (a : accumulator) (v : cell) : accumulator :=
  match v with
  | CNum x => if is_nan x then a else kahan_add a x
  | _ => a
  end.

(** The mean of a group, [sumx / count]; NaN for a group without a
    value. *)
Definition finish (a : accumulator) : number :=
  match nobs a with
  | O => nan
  | S _ => fdiv (sumx a) (of_int (Z.of_nat (nobs a)))
  end.

(** The state of each key, keys ascending. *)
Abbreviation groups := (list (cell * accumulator)).

Fixpoint group_add (k : cell) (v : cell) (g : groups) : groups :=
  match g with
  | [] => [(k, observe acc0 v)]
  | (k', a) :: rest =>
      match cell_compare k k' with
      | Lt => (k, observe acc0 v) :: g
      | Eq => (k', observe a v) :: rest
      | Gt => (k', a) :: group_add k v rest
      end
  end.

(** One row: a row with a missing key is left out. *)
Definition group_step (g : groups) (kv : cell * cell) : groups :=
  if isna kv.1 then g else group_add kv.1 kv.2 g.

(** One pass over the rows. *)
Definition group_rows (keys vals : Series) : groups :=
  fold_left group_step (combine keys vals) [].

(** [df.groupby(key)[[val]].mean().reset_index()]: the keys ascending, each
    with the mean of its values.  A text in the value column makes pandas
    raise [TypeError]. *)
Definition groupby_mean (df : DataFrame) (key val : string)
  : result (list (cell * number)) :=
  match List.filter (fun c => negb (has_column df c)) [key; val] with
  | [] =>
      if existsb is_text (get_column df val) then Raise TypeError
      else Ok (map (fun g => (g.1, finish g.2))
                 (group_rows (get_column df key) (get_column df val)))
  | missing => Raise (KeyError missing)
  end.

(** Lines 182-186: the table is made when both columns exist. *)
Definition category_table (df : DataFrame)
  : option (result (list (cell * number))) :=
  if has_column df "Category" && has_column df "AvgPrice"
  then Some (groupby_mean df "Category" "AvgPrice")
  else None.

(* ===================================================================== *)
(** ** The synthetic sample data *)
(* ===================================================================== *)

(** [pd.concat] of two frames: the rows of the second after the rows of the
    first; a column one of them lacks is NaN on its rows. *)
Definition concat2 (a b : DataFrame) : DataFrame :=
  mkDF (nrows a + nrows b)
    (merge (fun x y =>
              match x, y with
              | None, None => None
              | _, _ => Some (default (replicate (nrows a) (CNum nan)) x
                              ++ default (replicate (nrows b) (CNum nan)) y)%list
              end)
           (columns a) (columns b)).

(** [pd.concat(frames)] *)
Definition concat (frames : list DataFrame) : DataFrame :=
  match frames with
  | [] => mkDF 0 ∅
  | f :: rest => fold_left concat2 rest f
  end.

(** [months] and [years], lines 54-55. *)
Definition months : list string :=
  ["Jan"; "Feb"; "Mar"; "Apr"; "May"; "Jun";
   "Jul"; "Aug"; "Sep"; "Oct"; "Nov"; "Dec"].

Definition years : list Z := [2023; 2024; 2025]%Z.

Section Synthetic.

(** NumPy's global generator: its states, [np.random.seed] and
    [np.random.randn], which returns a draw and the next state. *)
Variable rng : Type.
Variable seed : Z -> rng.
Variable randn : rng -> number * rng.

(** [[base * (1 + np.random.randn()*noise) for _ in months]]: one draw
    per month, the generator threaded through. *)
Fixpoint series_draws (base noise : number) (ms : list string) (g : rng)
  : list number * rng :=
  match ms with
  | [] => ([], g)
  | _ :: r =>
      let d := randn g in
      let rest := series_draws base noise r (snd d) in
      (fmul base (fadd (of_int 1) (fmul (fst d) noise)) :: fst rest, snd rest)
  end.

Definition create_yearly_series (base noise : number) (g : rng)
  : list number * rng := series_draws base noise months g.

Definition int (z : Z) : number := of_int z.

(** The frame of one year, lines 62-68; the values of the dict are
    evaluated in the order they are written. *)
Definition year_frame (y : Z) (g : rng) : DataFrame * rng :=
  let production :=
    create_yearly_series
      (int (if (y =? 2023)%Z then 900000 else if (y =? 2024)%Z then 950000 else 1100000))
      (decimal 15 (-2)) g in
  let avg_price :=
    create_yearly_series
      (int (if (y =? 2023)%Z then 65 else if (y =? 2024)%Z then 67 else 72))
      (decimal 5 (-2)) (snd production) in
  let sellout :=
    create_yearly_series
      (int (if (y =? 2023)%Z then 1000000 else if (y =? 2024)%Z then 1200000 else 1450000))
      (decimal 15 (-2)) (snd avg_price) in
  (mkDF (length months)
     (<["Month" := map CStr months]>
      (<["Year" := replicate (length months) (CNum (int y))]>
       (<["Production" := map CNum (fst production)]>
        (<["AvgPrice" := map CNum (fst avg_price)]>
         (<["Sellout" := map CNum (fst sellout)]> ∅))))),
   snd sellout).

Fixpoint year_frames (ys : list Z) (g : rng) : list DataFrame * rng :=
  match ys with
  | [] => ([], g)
  | y :: r =>
      let f := year_frame y g in
      let rest := year_frames r (snd f) in
      (fst f :: fst rest, snd rest)
  end.

(** The [else] branch of the load step, lines 52-70, run from the state
    [g0] of the global generator: the frame and the state it leaves. *)
Definition synthetic_data (g0 : rng) : DataFrame * rng :=
  let g := seed 42 in
  let data := year_frames years g in
  (concat (fst data), snd data).

End Synthetic.

(* ===================================================================== *)
(** ** What [clean_numeric] does to one cell *)
(* ===================================================================== *)

(** The text of a cell with its commas and spaces removed. *)
Definition stripped_text (c : cell) : string :=
  str_replace " " "" (str_replace "," "" (cell_str c)).

(** The cleaned value of a cell: the number its stripped text spells, and
    zero when it spells none. *)
Definition clean_cell (c : cell) : cell :=
  let x := to_numeric_str (stripped_text c) in
  if is_nan x then CNum fzero else CNum x.

(** The column the loop stores for a column [s]. *)
Definition loop_column (s : Series) : Series :=
  to_numeric (series_str_replace " " "" (series_str_replace "," "" (astype_str s))).

(* ===================================================================== *)
(** ** The filter as the specification words it *)
(* ===================================================================== *)

(** Two numbers are equal: the same number that is not NaN, or two
    zeros. *)
Definition equal_numbers (x y : number) : Prop :=
  (x = y /\ x <> nan)
  \/ ((x = S754_zero false \/ x = S754_zero true)
      /\ (y = S754_zero false \/ y = S754_zero true)).

(** Two cells are equal: the same text, character for character, or
    equal numbers; a text and a number are not, and a missing value
    equals nothing. *)
Definition equal_cells (a b : cell) : Prop :=
  match a, b with
  | CStr s, CStr t => s = t
  | CNum x, CNum y => equal_numbers x y
  | _, _ => False
  end.

Global Instance equal_numbers_dec x y : Decision (equal_numbers x y).
Proof. unfold equal_numbers. apply _. Defined.

Global Instance equal_cells_dec a b : Decision (equal_cells a b).
Proof. destruct a, b; simpl; apply _. Defined.

(** An equality filter: a column label and the value asked for. *)
Abbreviation equality_filter := (string * cell)%type.

(** A row satisfies the filter [col = v] when its value in [col] equals
    [v]; a row of a table without that column satisfies it. *)
Definition satisfies (f : equality_filter) (row : gmap string cell) : Prop :=
  match row !! f.1 with
  | Some c => equal_cells c f.2
  | None => True
  end.

Global Instance satisfies_dec f row : Decision (satisfies f row).
Proof. unfold satisfies. destruct (row !! f.1); apply _. Defined.

(** The filters the two select boxes stand for: none for an "All ..."
    entry, the equality with the chosen value otherwise. *)
Definition chosen_filter (col sentinel : string) (choice : cell)
  : list equality_filter :=
  if decide (choice = CStr sentinel) then [] else [(col, choice)].

Definition chosen_filters (region category : cell) : list equality_filter :=
  (chosen_filter "Region" "All Regions" region
   ++ chosen_filter "Category" "All Categories" category)%list.

(** A row passes the equality filter [col = v], as a boolean. *)
Definition keeps (col : string) (v : cell) (row : gmap string cell) : bool :=
  match row !! col with
  | Some c => cell_eqb c v
  | None => true
  end.

(* ===================================================================== *)
(** ** The category table as the specification words it *)
(* ===================================================================== *)





(** A cell that holds a number, not NaN. *)
Definition is_number (c : cell) : bool :=
  match c with CNum x => negb (is_nan x) | _ => false end.

(** Ascending order of keys. *)
Definition key_lt (a b : cell) : Prop := cell_compare a b = Lt.

(** The rows seen so far that belong to the group of [k]. *)
Definition sel (l : list (cell * cell)) (k : cell) : list (cell * cell) :=
  List.filter (fun kv => cell_eqb kv.1 k) l.

(** [g] is the grouping of the rows [l]: keys ascending, each a key of a
    row with the state its rows leave, and every row with a key has its
    group. *)
Definition groups_of (l : list (cell * cell)) (g : groups) : Prop :=
  StronglySorted key_lt (map fst g)
  /\ Forall (fun e => isna e.1 = false /\ e.1 ∈ map fst l
                      /\ e.2 = fold_left observe (map snd (sel l e.1)) acc0) g
  /\ forall kv, kv ∈ l -> isna kv.1 = false ->
       exists e, e ∈ g /\ cell_eqb kv.1 e.1 = true.

(* ===================================================================== *)
(** ** The order of numbers, by rank *)
(* ===================================================================== *)

(** The place of a number that is not NaN in the order of float64: its
    class (the infinities, the negative and the positive numbers, zero),
    then its exponent and its mantissa, counted downwards for a negative
    number. *)
Definition rank (x : number) : Z * Z * Z :=
  match x with
  | S754_infinity true => (-2, 0, 0)%Z
  | S754_finite true m e => (-1, - e, Zneg m)%Z
  | S754_zero _ | S754_nan => (0, 0, 0)%Z
  | S754_finite false m e => (1, e, Zpos m)%Z
  | S754_infinity false => (2, 0, 0)%Z
  end.

Definition lex3 (a b : Z * Z * Z) : comparison :=
  match (a.1.1 ?= b.1.1)%Z with
  | Eq => match (a.1.2 ?= b.1.2)%Z with Eq => (a.2 ?= b.2)%Z | c => c end
  | c => c
  end.

(* ===================================================================== *)
(** ** Frames used as examples *)
(* ===================================================================== *)


(** An upload with the three numeric columns in text form. *)
Definition upload_text : DataFrame :=
  mkDF 2
    (<["Month" := [CStr "Jan"; CStr "Feb"]]>
     (<["Production" := [CStr "1,234.5"; CStr "abc"]]>
      (<["AvgPrice" := [CNone; CNum (of_int 5)]]>
       (<["Sellout" := [CStr "inf"; CStr " 1 000 "]]> ∅)))).


(** An upload without the columns [AvgPrice] and [Sellout]. *)
Definition upload_partial : DataFrame :=
  mkDF 1
    (<["Month" := [CStr "Jan"]]>
     (<["Production" := [CStr "1"]]> ∅)).




(** An upload with regions and categories. *)
Definition upload_regions : DataFrame :=
  mkDF 3
    (<["Region" := [CStr "West"; CStr "East"; CStr "West"]]>
     (<["Category" := [CStr "A"; CStr "A"; CStr "B"]]>
      (<["AvgPrice" := [CNum (of_int 10); CNum (of_int 20); CNum (of_int 5)]]> ∅))).

(* ===================================================================== *)
(** ** The script from the load step to the category table *)
(* ===================================================================== *)

(** [st.sidebar.selectbox(label, options)]: the option the user picked, by
    its position; [None] when there is no such option. *)
Definition selectbox (options : list cell) (index : nat) : cell :=
  nth index options CNone.

(** A row passes one [if] of the filter block: the choice is the "All ..."
    entry, or the row passes the equality filter. *)
Definition row_passes (col sentinel : string) (choice : cell)
    (row : gmap string cell) : bool :=
  cell_eqb choice (CStr sentinel) || keeps col choice row.

Section Script.

(** NumPy's global generator, and the uploaded files with [pd.read_csv]. *)
Variable rng : Type.
Variable seed : Z -> rng.
Variable randn : rng -> number * rng.
Variable file : Type.
Variable read_csv : file -> result DataFrame.

(** The load step, lines 45-70: the upload is read when there is one and
    the sample box is not ticked. *)
Definition load_data (uploaded_file : option file) (use_sample : bool) (g : rng)
  : result (DataFrame * rng) :=
  match uploaded_file with
  | Some f =>
      if negb use_sample then df <- read_csv f ;; Ok (df, g)
      else Ok (synthetic_data rng seed randn g)
  | None => Ok (synthetic_data rng seed randn g)
  end.

(** The script, lines 45-107 and 182-186, without the widgets that only
    display: the frame the charts are drawn from and the category table. *)
Definition script (uploaded_file : option file) (use_sample : bool)
    (region_index category_index : nat) (g : rng)
  : result (DataFrame * option (list (cell * number))) :=
  loaded <- load_data uploaded_file use_sample g ;;
  df <- clean_numeric loaded.1 numeric_cols ;;
  regions <- regions df ;;
  let region := selectbox regions region_index in
  categories <- categories df ;;
  let category := selectbox categories category_index in
  let df := apply_filters df region category in
  match category_table df with
  | None => Ok (df, None)
  | Some table => df_table <- table ;; Ok (df, Some df_table)
  end.

End Script.

(* ===================================================================== *)
(** ** Uploads used as examples of a whole run *)
(* ===================================================================== *)

(** The column holds a text and also a number. *)
Definition mixed_column (df : DataFrame) (col : string) : bool :=
  match columns df !! col with
  | Some s => existsb is_text s && existsb is_number s
  | None => false
  end.

(** An upload with every column the script looks at. *)
Definition upload_full : DataFrame :=
  mkDF 3
    (<["Month" := [CStr "Jan"; CStr "Jan"; CStr "Feb"]]>
     (<["Region" := [CStr "North"; CStr "South"; CStr "North"]]>
      (<["Category" := [CStr "A"; CStr "B"; CStr "B"]]>
       (<["Production" := [CStr "1,200"; CStr "900"; CStr "1,500"]]>
        (<["AvgPrice" := [CNum (of_int 10); CNum (of_int 20); CNum (of_int 5)]]>
         (<["Sellout" := [CNum (of_int 7); CStr "n/a"; CNum (of_int 9)]]> ∅)))))).

(* ===================================================================== *)
(** ** The draws of the sample data, by their rank *)
(* ===================================================================== *)

Section Draws.

Variable rng : Type.
Variable seed : Z -> rng.
Variable randn : rng -> number * rng.

(** The state of the generator after [k] draws from the seed 42, and the
    draw of rank [k]. *)
Definition state_after (k : nat) : rng :=
  Nat.iter k (fun s => snd (randn s)) (seed 42).

Definition draw (k : nat) : number := fst (randn (state_after k)).

(** Twelve monthly values around [base], from the draws of rank [first]
    to [first + 11]. *)
Definition monthly (base noise : number) (first : nat) : Series :=
  map (fun i => CNum (fmul base (fadd (of_int 1) (fmul (draw (first + i)) noise))))
      (seq 0 12).

End Draws.

(* ===================================================================== *)
(** * Properties *)
(* ===================================================================== *)

Lemma fillna_loop_column s :
  fillna (CNum fzero) (loop_column s) = map clean_cell s.
Proof.
  unfold fillna, loop_column, to_numeric, series_str_replace, astype_str.
  rewrite !List.map_map. apply List.map_ext. intros c.
  unfold clean_cell, stripped_text. simpl.
  by destruct (is_nan _).
Qed.

Lemma has_column_true df c : has_column df c = true <-> is_Some (columns df !! c).
Proof. unfold has_column. by rewrite bool_decide_eq_true. Qed.

Lemma has_column_false df c : has_column df c = false <-> columns df !! c = None.
Proof.
  unfold has_column. rewrite bool_decide_eq_false. by rewrite eq_None_not_Some.
Qed.

Lemma clean_column_nrows df c : nrows (clean_column df c) = nrows df.
Proof. unfold clean_column. by destruct (has_column df c). Qed.

Lemma clean_column_lookup df c k :
  columns (clean_column df c) !! k =
  if decide (c = k) then loop_column <$> columns df !! k else columns df !! k.
Proof.
  unfold clean_column. destruct (has_column df c) eqn:Hc.
  - apply has_column_true in Hc as [s Hs]. simpl.
    unfold get_column. rewrite Hs. simpl.
    destruct (decide (c = k)) as [->|Hne].
    + rewrite lookup_insert_eq, Hs. done.
    + by rewrite lookup_insert_ne.
  - apply has_column_false in Hc.
    destruct (decide (c = k)) as [->|Hne]; [by rewrite Hc | done].
Qed.

Lemma clean_loop_nrows cols df : nrows (clean_loop df cols) = nrows df.
Proof.
  unfold clean_loop. revert df.
  induction cols as [|c cols IH]; intros df; [done|].
  simpl. rewrite IH. apply clean_column_nrows.
Qed.

Lemma clean_loop_lookup cols df k :
  NoDup cols ->
  columns (clean_loop df cols) !! k =
  if decide (k ∈ cols) then loop_column <$> columns df !! k else columns df !! k.
Proof.
  unfold clean_loop. revert df. induction cols as [|c cols IH]; intros df Hnd.
  - simpl. destruct (decide (k ∈ [])) as [H|H]; [by apply not_elem_of_nil in H | done].
  - apply NoDup_cons in Hnd as [Hc Hnd]. simpl.
    rewrite (IH _ Hnd), clean_column_lookup.
    destruct (decide (c = k)) as [->|Hne].
    + destruct (decide (k ∈ cols)); [done|].
      destruct (decide (k ∈ k :: cols)) as [|Hn]; [done|].
      exfalso. apply Hn. left.
    + destruct (decide (k ∈ cols)) as [Hin|Hnin].
      * destruct (decide (k ∈ c :: cols)) as [|Hn]; [done|].
        exfalso. apply Hn. by right.
      * destruct (decide (k ∈ c :: cols)) as [Hin|]; [|done].
        apply elem_of_cons in Hin as [->|Hin]; done.
Qed.

Lemma getitem_list_Ok df cols sub :
  getitem_list df cols = Ok sub ->
  (forall c, c ∈ cols -> is_Some (columns df !! c))
  /\ sub = mkDF (nrows df) (filter (fun kv => kv.1 ∈ cols) (columns df)).
Proof.
  unfold getitem_list.
  destruct (List.filter _ cols) as [|m ms] eqn:Hf; [|discriminate].
  intros [= <-]. split; [|done].
  intros c Hc. apply has_column_true.
  destruct (has_column df c) eqn:Hh; [done|].
  assert (In c (List.filter (fun c => negb (has_column df c)) cols)) as Hin.
  { apply List.filter_In. split; [by apply list_elem_of_In | by rewrite Hh]. }
  rewrite Hf in Hin. destruct Hin.
Qed.

Lemma getitem_list_Raise df cols c :
  c ∈ cols -> columns df !! c = None ->
  exists missing, getitem_list df cols = Raise (KeyError missing) /\ c ∈ missing.
Proof.
  intros Hc Hn. unfold getitem_list.
  assert (In c (List.filter (fun c => negb (has_column df c)) cols)) as Hin.
  { apply List.filter_In. split; [by apply list_elem_of_In|].
    apply has_column_false in Hn. by rewrite Hn. }
  destruct (List.filter _ cols) as [|m ms]; [destruct Hin|].
  eexists. split; [done|]. by apply list_elem_of_In.
Qed.

Lemma setitem_fold_nrows cols (value df : DataFrame) :
  nrows (fold_left (fun d k => set_column d k (get_column value k)) cols df)
  = nrows df.
Proof.
  revert df. induction cols as [|c cols IH]; intros df; [done|].
  simpl. by rewrite IH.
Qed.

Lemma setitem_fold_lookup cols (value df : DataFrame) k :
  columns (fold_left (fun d k => set_column d k (get_column value k)) cols df) !! k
  = if decide (k ∈ cols) then Some (get_column value k) else columns df !! k.
Proof.
  revert df. induction cols as [|c cols IH]; intros df.
  - simpl. destruct (decide (k ∈ [])) as [H|H]; [by apply not_elem_of_nil in H | done].
  - simpl. rewrite IH. simpl.
    destruct (decide (k ∈ cols)) as [Hin|Hnin].
    + destruct (decide (k ∈ c :: cols)) as [|Hn]; [done|].
      exfalso. apply Hn. by right.
    + destruct (decide (c = k)) as [->|Hne].
      * rewrite lookup_insert_eq.
        destruct (decide (k ∈ k :: cols)) as [|Hn]; [done|].
        exfalso. apply Hn. left.
      * rewrite lookup_insert_ne by done.
        destruct (decide (k ∈ c :: cols)) as [Hin|]; [|done].
        apply elem_of_cons in Hin as [->|Hin]; done.
Qed.

(** The frame [clean_numeric] returns, when it returns one. *)
Lemma clean_numeric_Ok df cols df' :
  clean_numeric df cols = Ok df' ->
  NoDup cols
  /\ (forall c, c ∈ cols -> is_Some (columns df !! c))
  /\ nrows df' = nrows df
  /\ forall k, columns df' !! k =
       if decide (k ∈ cols) then map clean_cell <$> columns df !! k
       else columns df !! k.
Proof.
  unfold clean_numeric. intros H.
  destruct (getitem_list (clean_loop df cols) cols) as [sub|e] eqn:Hg; [|discriminate].
  simpl in H. unfold setitem_list in H.
  destruct (bool_decide (NoDup cols)) eqn:Hnd; [|discriminate].
  apply bool_decide_eq_true in Hnd. simpl in H. injection H as <-.
  apply getitem_list_Ok in Hg as [Hall ->].
  assert (forall c, c ∈ cols -> is_Some (columns df !! c)) as Hall'.
  { intros c Hc. specialize (Hall c Hc).
    rewrite (clean_loop_lookup _ _ _ Hnd) in Hall.
    destruct (decide (c ∈ cols)); [|done].
    by apply fmap_is_Some in Hall. }
  split; [done|]. split; [done|]. split.
  { by rewrite setitem_fold_nrows, clean_loop_nrows. }
  intros k. rewrite setitem_fold_lookup.
  destruct (decide (k ∈ cols)) as [Hk|Hk].
  - destruct (Hall' k Hk) as [s Hs]. rewrite Hs. simpl. f_equal.
    unfold get_column, frame_fillna. simpl.
    rewrite lookup_fmap.
    rewrite (map_lookup_filter_Some_2 _ _ k (loop_column s)).
    + simpl. apply fillna_loop_column.
    + rewrite (clean_loop_lookup _ _ _ Hnd).
      destruct (decide (k ∈ cols)); [|done]. by rewrite Hs.
    + done.
  - rewrite (clean_loop_lookup _ _ _ Hnd).
    by destruct (decide (k ∈ cols)).
Qed.

(** [clean_numeric] returns a frame exactly when the names are distinct
    columns of the frame. *)
Lemma clean_numeric_returns df cols :
  NoDup cols -> (forall c, c ∈ cols -> is_Some (columns df !! c)) ->
  exists df', clean_numeric df cols = Ok df'.
Proof.
  intros Hnd Hall. unfold clean_numeric, getitem_list.
  destruct (List.filter _ cols) as [|m ms] eqn:Hf.
  - simpl. unfold setitem_list. rewrite bool_decide_eq_true_2 by done.
    simpl. eauto.
  - exfalso.
    assert (In m (List.filter (fun c => negb (has_column (clean_loop df cols) c)) cols)) as Hin.
    { rewrite Hf. by left. }
    apply List.filter_In in Hin as [Hin Hm].
    apply list_elem_of_In in Hin.
    apply negb_true_iff, has_column_false in Hm.
    rewrite (clean_loop_lookup _ _ _ Hnd) in Hm.
    destruct (decide (m ∈ cols)); [|done].
    destruct (Hall m Hin) as [s Hs]. by rewrite Hs in Hm.
Qed.

(* ===================================================================== *)
(** ** Cleaned cells *)
(* ===================================================================== *)

(** A cleaned cell is a number that is not NaN. *)
Lemma clean_cell_number c :
  exists y, clean_cell c = CNum y /\ is_nan y = false.
Proof.
  unfold clean_cell.
  destruct (is_nan (to_numeric_str (stripped_text c))) eqn:Hn; eauto.
Qed.




Lemma DataFrame_eq (a b : DataFrame) :
  nrows a = nrows b -> (forall k, columns a !! k = columns b !! k) -> a = b.
Proof.
  destruct a, b. simpl. intros -> H. f_equal. by apply map_eq.
Qed.

(* ===================================================================== *)
(** ** Boolean masks and rows *)
(* ===================================================================== *)

Lemma mask_select_map {A B : Type} (f : A -> B) mask (l : list A) :
  mask_select mask (map f l) = map f (mask_select mask l).
Proof.
  revert l. induction mask as [|b mask IH]; intros [|x l]; simpl; try done.
  destruct b; simpl; by rewrite IH.
Qed.

Lemma mask_select_filter {A : Type} (f : A -> bool) (l : list A) :
  mask_select (map f l) l = List.filter f l.
Proof.
  induction l as [|x l IH]; simpl; [done|]. destruct (f x); by rewrite IH.
Qed.

Lemma mask_select_length_le {A : Type} mask (l : list A) :
  length (mask_select mask l) <= count_true mask.
Proof.
  unfold count_true. revert l.
  induction mask as [|b mask IH]; intros [|x l]; simpl; try lia.
  specialize (IH l). destruct b; simpl; lia.
Qed.

Lemma mask_select_length {A : Type} mask (l : list A) :
  length l = length mask -> length (mask_select mask l) = count_true mask.
Proof.
  unfold count_true. revert l.
  induction mask as [|b mask IH]; intros [|x l]; simpl; try done.
  intros [= H]. destruct b; simpl; by rewrite IH.
Qed.

(** The entry [j] of a selection is the entry of the column at the [j]-th
    selected position. *)
Lemma mask_select_lookup {A : Type} mask (s : list A) a j k :
  length s = length mask ->
  mask_select mask (seq a (length mask)) !! j = Some k ->
  mask_select mask s !! j = s !! (k - a).
Proof.
  revert s a j. induction mask as [|b mask IH]; intros [|x s] a j; simpl; try done.
  intros [= Hlen]. destruct b.
  - destruct j as [|j]; simpl.
    + intros [= <-]. by rewrite Nat.sub_diag.
    + intros Hk. rewrite (IH s (S a) j Hlen Hk).
      assert (S a <= k) as Hle.
      { apply list_elem_of_lookup_2 in Hk.
        assert (k ∈ seq (S a) (length mask)) as Hin.
        { clear -Hk. revert Hk. generalize (seq (S a) (length mask)).
          induction mask as [|b m IHm]; intros [|y l]; simpl; try by intros ?%elem_of_nil.
          destruct b; intros H.
          - apply elem_of_cons in H as [->|H]; [left | right; by apply IHm].
          - right. by apply IHm. }
        apply elem_of_seq in Hin. lia. }
      replace (k - a) with (S (k - S a)) by lia. done.
  - intros Hk. rewrite (IH s (S a) j Hlen Hk).
    assert (S a <= k) as Hle.
    { apply list_elem_of_lookup_2 in Hk.
      assert (k ∈ seq (S a) (length mask)) as Hin.
      { clear -Hk. revert Hk. generalize (seq (S a) (length mask)).
        induction mask as [|b m IHm]; intros [|y l]; simpl; try by intros ?%elem_of_nil.
        destruct b; intros H.
        - apply elem_of_cons in H as [->|H]; [left | right; by apply IHm].
        - right. by apply IHm. }
      apply elem_of_seq in Hin. lia. }
    replace (k - a) with (S (k - S a)) by lia. done.
Qed.

Lemma row_at_lookup df i col :
  row_at df i !! col = columns df !! col ≫= (fun s : Series => s !! i).
Proof. unfold row_at. apply lookup_omap. Qed.

(** The rows of [df[mask]] are the rows of [df] where the mask is true. *)
Lemma rows_getitem_mask df mask :
  rectangular df -> length mask = nrows df ->
  rows (getitem_mask df mask) = mask_select mask (rows df).
Proof.
  intros Hrect Hlen. unfold rows. rewrite mask_select_map. simpl.
  rewrite <- Hlen.
  assert (length (mask_select mask (seq 0 (length mask))) = count_true mask) as Hc.
  { apply mask_select_length. by rewrite length_seq. }
  apply list_eq. intros j. rewrite !list_lookup_fmap.
  destruct (mask_select mask (seq 0 (length mask)) !! j) as [k|] eqn:Hk.
  - assert (j < count_true mask) as Hj.
    { rewrite <- Hc. by apply lookup_lt_Some in Hk. }
    rewrite lookup_seq_lt by done. simpl. f_equal.
    apply map_eq. intros col. rewrite !row_at_lookup. simpl.
    rewrite lookup_fmap.
    destruct (columns df !! col) as [s|] eqn:Hs; [|done]. simpl.
    rewrite (mask_select_lookup mask s 0 j k); [by rewrite Nat.sub_0_r| |done].
    rewrite (Hrect col s Hs). done.
  - apply lookup_ge_None in Hk. rewrite Hc in Hk.
    rewrite lookup_seq_ge by done. done.
Qed.

Lemma rectangular_getitem_mask df mask :
  rectangular df -> length mask = nrows df -> rectangular (getitem_mask df mask).
Proof.
  intros Hrect Hlen col s. simpl. rewrite lookup_fmap.
  destruct (columns df !! col) as [t|] eqn:Ht; [|done].
  simpl. intros [= <-]. apply mask_select_length.
  rewrite (Hrect col t Ht). done.
Qed.

Lemma filter_true {A : Type} (f : A -> bool) (l : list A) :
  (forall x, x ∈ l -> f x = true) -> List.filter f l = l.
Proof.
  induction l as [|x l IH]; simpl; [done|]. intros H.
  rewrite (H x) by left. f_equal. apply IH. intros y Hy. apply H. by right.
Qed.

(** One step of the filter block, on rows. *)
Lemma rows_filter_by col sentinel choice df :
  rectangular df -> cell_eqb choice (CStr sentinel) = false ->
  rectangular (filter_by col sentinel choice df)
  /\ rows (filter_by col sentinel choice df) = List.filter (keeps col choice) (rows df).
Proof.
  intros Hrect Hne. unfold filter_by. rewrite Hne. simpl.
  destruct (has_column df col) eqn:Hc.
  - apply has_column_true in Hc as [s Hs].
    unfold get_column. rewrite Hs. simpl.
    assert (length (series_eq s choice) = nrows df) as Hlen.
    { unfold series_eq. rewrite length_map. apply (Hrect col s Hs). }
    split; [by apply rectangular_getitem_mask|].
    rewrite rows_getitem_mask by done.
    rewrite <- mask_select_filter. f_equal.
    unfold rows, series_eq. rewrite List.map_map.
    apply list_eq. intros i. rewrite !list_lookup_fmap.
    destruct (s !! i) as [c|] eqn:Hi.
    + assert (i < nrows df) as Hlt.
      { rewrite <- (Hrect col s Hs). by apply lookup_lt_Some in Hi. }
      rewrite lookup_seq_lt by done. simpl. f_equal.
      unfold keeps. rewrite row_at_lookup, Hs. simpl. by rewrite Hi.
    + apply lookup_ge_None in Hi. rewrite (Hrect col s Hs) in Hi.
      by rewrite lookup_seq_ge.
  - split; [done|]. symmetry. apply filter_true.
    intros r Hr. unfold rows in Hr. apply list_elem_of_fmap in Hr as (i & -> & _).
    unfold keeps. rewrite row_at_lookup.
    apply has_column_false in Hc. by rewrite Hc.
Qed.

(** One [if] of the filter block on rows, whatever is chosen. *)
Lemma rows_filter_by_passes col sentinel choice df :
  rectangular df ->
  rectangular (filter_by col sentinel choice df)
  /\ rows (filter_by col sentinel choice df)
     = List.filter (row_passes col sentinel choice) (rows df).
Proof.
  intros Hrect. destruct (cell_eqb choice (CStr sentinel)) eqn:Hs.
  - unfold filter_by. rewrite Hs. simpl. split; [done|].
    symmetry. apply filter_true. intros r _. unfold row_passes. by rewrite Hs.
  - destruct (rows_filter_by col sentinel choice df Hrect Hs) as [H1 H2].
    split; [done|]. rewrite H2. apply List.filter_ext. intros r.
    unfold row_passes. by rewrite Hs.
Qed.

Lemma filter_filter {A : Type} (f g : A -> bool) (l : list A) :
  List.filter g (List.filter f l) = List.filter (fun x => f x && g x) l.
Proof.
  induction l as [|x l IH]; simpl; [done|].
  destruct (f x); simpl; [|done]. destruct (g x); by rewrite IH.
Qed.

Lemma count_true_map_filter {A : Type} (f : A -> bool) (l : list A) :
  count_true (map f l) = length (List.filter f l).
Proof.
  unfold count_true. induction l as [|x l IH]; simpl; [done|].
  destruct (f x); simpl; by rewrite IH.
Qed.

Lemma mask_select_all_true {A : Type} mask (l : list A) :
  Forall (fun b => b = true) mask -> length l <= length mask ->
  mask_select mask l = l.
Proof.
  intros Hall. revert l. induction Hall as [|b mask -> _ IH]; intros [|x l]; simpl;
    try done; try lia.
  intros H. f_equal. apply IH. lia.
Qed.

Lemma count_true_all_true mask :
  Forall (fun b => b = true) mask -> count_true mask = length mask.
Proof.
  unfold count_true. induction 1 as [|b mask -> _ IH]; simpl; [done | by rewrite IH].
Qed.

(** The mask of an already filtered column is true everywhere. *)
Lemma series_eq_selected s v :
  Forall (fun b => b = true) (series_eq (mask_select (series_eq s v) s) v).
Proof.
  unfold series_eq. rewrite mask_select_filter.
  induction s as [|c s IH]; simpl; [constructor|].
  destruct (cell_eqb c v) eqn:E; simpl; [|done]. constructor; done.
Qed.

Lemma filter_by_sentinel col sentinel df :
  filter_by col sentinel (CStr sentinel) df = df.
Proof. unfold filter_by. simpl. by rewrite String.eqb_refl. Qed.

Lemma elem_of_mask_select_series_eq c s v :
  c ∈ mask_select (series_eq s v) s -> cell_eqb c v = true.
Proof.
  unfold series_eq. rewrite mask_select_filter.
  intros H. apply list_elem_of_In, List.filter_In in H. tauto.
Qed.

Lemma cell_eqb_str_sym s v : cell_eqb (CStr s) v = cell_eqb v (CStr s).
Proof. destruct v as [t| |]; simpl; try done. apply String.eqb_sym. Qed.

(* ===================================================================== *)
(** ** The order of group keys *)
(* ===================================================================== *)

Local Open Scope Z_scope.

Ltac lex3_cases :=
  unfold lex3; simpl;
  repeat match goal with
         | |- context [?a ?= ?b] => destruct (Z.compare_spec a b)
         end;
  simpl; try done; try lia.

Lemma lex3_refl a : lex3 a a = Eq.
Proof. destruct a as [[a1 a2] a3]. lex3_cases. Qed.

Lemma lex3_antisym a b : lex3 a b = CompOpp (lex3 b a).
Proof. destruct a as [[a1 a2] a3], b as [[b1 b2] b3]. lex3_cases. Qed.

Lemma lex3_trans a b c : lex3 a b = Lt -> lex3 b c = Lt -> lex3 a c = Lt.
Proof.
  destruct a as [[a1 a2] a3], b as [[b1 b2] b3], c as [[c1 c2] c3]. lex3_cases.
Qed.

Lemma lex3_eq a b : lex3 a b = Eq -> a = b.
Proof.
  destruct a as [[a1 a2] a3], b as [[b1 b2] b3]. lex3_cases.
  intros _. by subst.
Qed.

(** Two numbers compare as their ranks. *)
Lemma num_compare_rank x y :
  is_nan x = false -> is_nan y = false ->
  num_compare x y = lex3 (rank x) (rank y).
Proof.
  destruct x as [[]|[]| |[] m1 e1], y as [[]|[]| |[] m2 e2]; try done;
    intros _ _; unfold num_compare, lex3; simpl.
  rewrite Z.compare_opp, (Z.compare_antisym e2 e1).
  destruct (e2 ?= e1); simpl; done.
Qed.

Lemma num_eqb_compare x y :
  is_nan x = false -> is_nan y = false ->
  num_eqb x y = true <-> num_compare x y = Eq.
Proof.
  intros _ _. unfold num_eqb, SFeqb, num_compare.
  destruct (SFcompare x y) as [[]|]; done.
Qed.

Lemma num_eqb_not_nan x y :
  num_eqb x y = true -> is_nan x = false /\ is_nan y = false.
Proof. destruct x as [| | |], y as [| | |]; done. Qed.

Lemma num_compare_refl x : is_nan x = false -> num_compare x x = Eq.
Proof. intros H. rewrite num_compare_rank by done. apply lex3_refl. Qed.

Lemma num_compare_antisym x y :
  is_nan x = false -> is_nan y = false ->
  num_compare x y = CompOpp (num_compare y x).
Proof. intros. rewrite !num_compare_rank by done. apply lex3_antisym. Qed.

Lemma num_compare_trans x y z :
  is_nan x = false -> is_nan y = false -> is_nan z = false ->
  num_compare x y = Lt -> num_compare y z = Lt -> num_compare x z = Lt.
Proof. intros. rewrite !num_compare_rank in * by done. by eapply lex3_trans. Qed.

Lemma num_compare_eq_compat x y z :
  is_nan x = false -> is_nan y = false -> is_nan z = false ->
  num_compare x y = Eq -> num_compare x z = num_compare y z.
Proof.
  intros ??? H. rewrite !num_compare_rank in * by done.
  by rewrite (lex3_eq _ _ H).
Qed.

(** Numbers of the same rank are equal numbers. *)
Lemma rank_equal_numbers x y :
  is_nan x = false -> is_nan y = false ->
  rank x = rank y <-> equal_numbers x y.
Proof.
  intros Hx Hy. unfold equal_numbers, nan. split.
  - intros H.
    destruct x as [[]|[]| |[] m1 e1], y as [[]|[]| |[] m2 e2];
      try done; simpl in H; try discriminate H;
      try (right; split; auto; fail); try (by left).
    + injection H as He ->. assert (e1 = e2) as -> by lia. by left.
    + injection H as -> ->. by left.
  - intros [[-> _]|[[-> | ->] [-> | ->]]]; done.
Qed.

(** [==] on numbers is the equality of numbers. *)
Lemma num_eqb_equal x y : num_eqb x y = true <-> equal_numbers x y.
Proof.
  destruct (is_nan x) eqn:Hx.
  { destruct x; try done. split; [done|].
    unfold equal_numbers, nan. intros [[_ ?]|[[[= ]|[= ]] _]]. done. }
  destruct (is_nan y) eqn:Hy.
  { destruct y; try done. split; [by destruct x|].
    unfold equal_numbers, nan. intros [[-> ?]|[_ [[= ]|[= ]]]]. done. }
  rewrite num_eqb_compare, num_compare_rank by done.
  rewrite <- rank_equal_numbers by done. split.
  - apply lex3_eq.
  - intros ->. apply lex3_refl.
Qed.

Local Close Scope Z_scope.

Lemma string_compare_refl s : String.compare s s = Eq.
Proof.
  pose proof (String.compare_antisym s s) as H.
  destruct (String.compare s s); done.
Qed.

Lemma string_compare_trans s t u :
  String.compare s t = Lt -> String.compare t u = Lt -> String.compare s u = Lt.
Proof.
  intros H1 H2.
  assert (String.le s u) as Hle.
  { transitivity t; unfold String.le, String.leb; [by rewrite H1 | by rewrite H2]. }
  unfold String.le, String.leb in Hle.
  destruct (String.compare s u) eqn:E; [|done|done].
  apply String.compare_eq_iff in E. subst.
  rewrite String.compare_antisym, H2 in H1. done.
Qed.

Lemma string_eqb_compare s t : String.eqb s t = true <-> String.compare s t = Eq.
Proof.
  rewrite String.eqb_eq. split.
  - intros ->. apply string_compare_refl.
  - apply String.compare_eq_iff.
Qed.

Lemma cell_eqb_compare a b :
  isna a = false -> isna b = false ->
  cell_eqb a b = true <-> cell_compare a b = Eq.
Proof.
  destruct a as [s|x|], b as [t|y|]; simpl; try done.
  - intros _ _. apply string_eqb_compare.
  - apply num_eqb_compare.
Qed.

Lemma cell_eqb_isna a b : cell_eqb a b = true -> isna a = false /\ isna b = false.
Proof.
  destruct a as [s|x|], b as [t|y|]; simpl; try done.
  apply num_eqb_not_nan.
Qed.

(** [==] on cells is the equality of cells. *)
Lemma cell_eqb_equal a b : cell_eqb a b = true <-> equal_cells a b.
Proof.
  destruct a as [s|x|], b as [t|y|]; simpl; try done.
  - apply String.eqb_eq.
  - apply num_eqb_equal.
Qed.

Lemma cell_compare_refl a : isna a = false -> cell_compare a a = Eq.
Proof.
  destruct a as [s|x|]; simpl; try done.
  - intros _. apply string_compare_refl.
  - apply num_compare_refl.
Qed.

Lemma cell_compare_antisym a b :
  isna a = false -> isna b = false ->
  cell_compare a b = CompOpp (cell_compare b a).
Proof.
  destruct a as [s|x|], b as [t|y|]; simpl; try done.
  - intros _ _. apply String.compare_antisym.
  - apply num_compare_antisym.
Qed.

Lemma cell_compare_trans a b c :
  isna a = false -> isna b = false -> isna c = false ->
  cell_compare a b = Lt -> cell_compare b c = Lt -> cell_compare a c = Lt.
Proof.
  destruct a as [s|x|], b as [t|y|], c as [u|z|]; simpl; try done.
  - intros _ _ _. apply string_compare_trans.
  - apply num_compare_trans.
Qed.

Lemma cell_compare_eq_compat a b c :
  isna a = false -> isna b = false -> isna c = false ->
  cell_compare a b = Eq -> cell_compare a c = cell_compare b c.
Proof.
  destruct a as [s|x|], b as [t|y|], c as [u|z|]; simpl; try done.
  - intros _ _ _ ->%String.compare_eq_iff. done.
  - apply num_compare_eq_compat.
Qed.

(* ===================================================================== *)
(** ** Grouping *)
(* ===================================================================== *)

Local Open Scope list_scope.

(** Where [group_add] puts a row: after the groups with smaller keys,
    either as a new group or into the group of its key. *)
Lemma group_add_split k (v : cell) (g : groups) :
  exists g1 g2 : groups,
    Forall (fun e => cell_compare k e.1 = Gt) g1
    /\ ((g = g1 ++ g2
         /\ group_add k v g = g1 ++ (k, observe acc0 v) :: g2
         /\ Forall (fun e => cell_compare k e.1 = Lt) (List.firstn 1 g2))
        \/ (exists k' a,
              g = g1 ++ (k', a) :: g2
              /\ cell_compare k k' = Eq
              /\ group_add k v g = g1 ++ (k', observe a v) :: g2)).
Proof.
  induction g as [|[k' a] g IH].
  - exists [], []. split; [constructor|]. left. simpl. repeat split; constructor.
  - cbn [group_add]. destruct (cell_compare k k') eqn:Hc.
    + exists [], g. split; [constructor|]. right. exists k', a. by repeat split.
    + exists [], ((k', a) :: g). split; [constructor|]. left.
      repeat split. simpl. constructor; [done | constructor].
    + destruct IH as (g1 & g2 & Hg1 & Hcase).
      exists ((k', a) :: g1), g2. split; [by constructor|].
      destruct Hcase as [(-> & -> & Hlt)|(k'' & a' & -> & Heq & ->)].
      * left. by repeat split.
      * right. exists k'', a'. by repeat split.
Qed.

Lemma sel_snoc l kv k :
  sel (l ++ [kv]) k = (sel l k ++ if cell_eqb kv.1 k then [kv] else [])%list.
Proof.
  unfold sel. rewrite List.filter_app. simpl. by destruct (cell_eqb kv.1 k).
Qed.

Lemma entry_snoc_other l kv k :
  cell_eqb kv.1 k = false ->
  fold_left observe (map snd (sel (l ++ [kv]) k)) acc0
  = fold_left observe (map snd (sel l k)) acc0.
Proof. intros H. by rewrite sel_snoc, H, app_nil_r. Qed.

Lemma entry_snoc_same l kv k :
  cell_eqb kv.1 k = true ->
  fold_left observe (map snd (sel (l ++ [kv]) k)) acc0
  = observe (fold_left observe (map snd (sel l k)) acc0) kv.2.
Proof. intros H. by rewrite sel_snoc, H, List.map_app, fold_left_app. Qed.

Lemma cell_eqb_false_of_compare a b :
  isna a = false -> isna b = false -> cell_compare a b <> Eq -> cell_eqb a b = false.
Proof.
  intros Ha Hb Hc. destruct (cell_eqb a b) eqn:E; [|done].
  by apply cell_eqb_compare in E.
Qed.

Lemma groups_of_nil : groups_of [] [].
Proof.
  split; [constructor|]. split; [constructor|].
  intros kv H. by apply elem_of_nil in H.
Qed.

(** One more row keeps the grouping. *)
Lemma groups_of_step l g kv :
  groups_of l g -> groups_of (l ++ [kv]) (group_step g kv).
Proof.
  intros (Hsort & Hent & Hcov). unfold group_step.
  destruct (isna kv.1) eqn:Hna.
  { (* the row has no key *)
    assert (forall k, cell_eqb kv.1 k = false) as Hne.
    { intros k. destruct (cell_eqb kv.1 k) eqn:E; [|done].
      apply cell_eqb_isna in E as [E _]. congruence. }
    split; [done|]. split.
    - eapply Forall_impl; [exact Hent|]. intros [k a] (H1 & H2 & H3). simpl in *.
      split; [done|]. split.
      + rewrite List.map_app. apply elem_of_app. by left.
      + by rewrite (entry_snoc_other l kv k (Hne k)).
    - intros kv' [Hin|Hin%list_elem_of_singleton]%elem_of_app Hk; [by apply Hcov|].
      subst. congruence. }
  assert (Forall (fun e : cell * accumulator => isna e.1 = false) g) as Hkeys.
  { eapply Forall_impl; [exact Hent|]. by intros e (H & _). }
  set (k := kv.1) in *. set (v := kv.2).
  destruct (group_add_split k v g) as (g1 & g2 & Hg1 & Hcase).
  assert (forall e, e ∈ g1 -> isna e.1 = false -> cell_compare e.1 k = Lt) as Hg1lt.
  { intros e He Hne. rewrite Forall_forall in Hg1.
    rewrite cell_compare_antisym, (Hg1 e He) by done. done. }
  destruct Hcase as [(Hg & Hadd & Hfirst)|(k' & a & Hg & Heq & Hadd)].
  - (* a new group *)
    subst g. rewrite Hadd.
    rewrite List.map_app in Hsort. apply StronglySorted_app in Hsort as (H12 & Hs1 & Hs2).
    apply Forall_app in Hkeys as [Hk1 Hk2]. rewrite Forall_forall in Hk1, Hk2.
    assert (forall e, e ∈ g2 -> cell_compare k e.1 = Lt) as Hg2lt.
    { destruct g2 as [|e0 g2]; [by intros e ?%elem_of_nil|].
      simpl in Hfirst. apply Forall_cons in Hfirst as [H0 _].
      intros e [->|He]%elem_of_cons; [done|].
      simpl in Hs2. apply StronglySorted_cons in Hs2 as [Hall _].
      rewrite Forall_forall in Hall.
      apply (cell_compare_trans k e0.1 e.1); try done.
      - apply Hk2. left.
      - apply Hk2. by right.
      - apply Hall. apply list_elem_of_fmap. by exists e. }
    assert (sel l k = []) as Hsel.
    { destruct (sel l k) as [|kv0 rest] eqn:E; [done|]. exfalso.
      assert (kv0 ∈ sel l k) as Hin by (rewrite E; left).
      unfold sel in Hin. apply list_elem_of_In, List.filter_In in Hin as [Hin H0].
      apply list_elem_of_In in Hin.
      destruct (cell_eqb_isna _ _ H0) as [Hna0 _].
      destruct (Hcov kv0 Hin Hna0) as (e & He & Hee).
      destruct (cell_eqb_isna _ _ Hee) as [_ Hnae].
      apply cell_eqb_compare in H0; [|done|done].
      apply cell_eqb_compare in Hee; [|done|done].
      rewrite (cell_compare_eq_compat kv0.1 k e.1) in Hee by done.
      apply elem_of_app in He as [He|He].
      + rewrite Forall_forall in Hg1. rewrite (Hg1 e He) in Hee. done.
      + rewrite (Hg2lt e He) in Hee. done. }
    split; [|split].
    + rewrite List.map_app. simpl. apply StronglySorted_app. split; [|split; [done|]].
      * intros x1 x2 H1 [->|H2]%elem_of_cons.
        -- apply list_elem_of_fmap in H1 as (e & -> & He).
           apply Hg1lt; [done | by apply Hk1].
        -- by apply H12.
      * apply StronglySorted_cons. split; [|done].
        apply Forall_forall. intros x (e & -> & He)%list_elem_of_fmap.
        by apply Hg2lt.
    + apply Forall_app in Hent as [He1 He2].
      assert (cell_eqb k k = true) as Hkk.
      { apply cell_eqb_compare; try done. by apply cell_compare_refl. }
      apply Forall_app. split; [|apply Forall_cons; split].
      * apply Forall_forall. intros e He. rewrite Forall_forall in He1.
        destruct (He1 e He) as (H1 & H2 & H3). split; [done|]. split.
        -- rewrite List.map_app. apply elem_of_app. by left.
        -- rewrite (entry_snoc_other l kv e.1); [done|].
           apply cell_eqb_false_of_compare; try done. fold k.
           rewrite Forall_forall in Hg1. by rewrite (Hg1 e He).
      * simpl. split; [done|]. split.
        -- rewrite List.map_app. apply elem_of_app. right. simpl. left.
        -- rewrite (entry_snoc_same l kv k Hkk), Hsel. done.
      * apply Forall_forall. intros e He. rewrite Forall_forall in He2.
        destruct (He2 e He) as (H1 & H2 & H3). split; [done|]. split.
        -- rewrite List.map_app. apply elem_of_app. by left.
        -- rewrite (entry_snoc_other l kv e.1); [done|].
           apply cell_eqb_false_of_compare; try done. fold k.
           by rewrite (Hg2lt e He).
    + intros kv' [Hin|Hin%list_elem_of_singleton]%elem_of_app Hk.
      * destruct (Hcov kv' Hin Hk) as (e & He & Hee). exists e. split; [|done].
        apply elem_of_app in He as [He|He]; apply elem_of_app; [by left|].
        right. by right.
      * subst kv'. exists (k, observe acc0 v). split.
        -- apply elem_of_app. right. left.
        -- simpl. apply cell_eqb_compare; try done. by apply cell_compare_refl.
  - (* the group of the key exists *)
    subst g. rewrite Hadd.
    assert (map fst (g1 ++ (k', observe a v) :: g2)
            = map fst (g1 ++ (k', a) :: g2)) as Hfst.
    { by rewrite !List.map_app. }
    apply Forall_app in Hkeys as [Hk1 Hk2].
    apply Forall_cons in Hk2 as [Hk' Hk2]. simpl in Hk'.
    rewrite Forall_forall in Hk1, Hk2.
    assert (forall e, e ∈ g2 -> cell_compare k e.1 = Lt) as Hg2lt.
    { intros e He.
      rewrite (cell_compare_eq_compat k k' e.1) by (try done; by apply Hk2).
      rewrite List.map_app in Hsort. apply StronglySorted_app in Hsort as (_ & _ & Hs2).
      simpl in Hs2. apply StronglySorted_cons in Hs2 as [Hall _].
      rewrite Forall_forall in Hall. apply Hall.
      apply list_elem_of_fmap. by exists e. }
    assert (cell_eqb k k' = true) as Hkk by (by apply cell_eqb_compare).
    split; [|split].
    + by rewrite Hfst.
    + apply Forall_app in Hent as [He1 He2].
      apply Forall_cons in He2 as [(_ & Hin' & Hval) He2]. simpl in Hin', Hval.
      apply Forall_app. split; [|apply Forall_cons; split].
      * apply Forall_forall. intros e He. rewrite Forall_forall in He1.
        destruct (He1 e He) as (H1 & H2 & H3). split; [done|]. split.
        -- rewrite List.map_app. apply elem_of_app. by left.
        -- rewrite (entry_snoc_other l kv e.1); [done|].
           apply cell_eqb_false_of_compare; try done. fold k.
           rewrite Forall_forall in Hg1. by rewrite (Hg1 e He).
      * simpl. split; [done|]. split.
        -- rewrite List.map_app. apply elem_of_app. by left.
        -- rewrite (entry_snoc_same l kv k' Hkk). by rewrite <- Hval.
      * apply Forall_forall. intros e He. rewrite Forall_forall in He2.
        destruct (He2 e He) as (H1 & H2 & H3). split; [done|]. split.
        -- rewrite List.map_app. apply elem_of_app. by left.
        -- rewrite (entry_snoc_other l kv e.1); [done|].
           apply cell_eqb_false_of_compare; try done. fold k.
           by rewrite (Hg2lt e He).
    + intros kv' [Hin|Hin%list_elem_of_singleton]%elem_of_app Hk.
      * destruct (Hcov kv' Hin Hk) as (e & He & Hee).
        apply elem_of_app in He as [He|[->|He]%elem_of_cons].
        -- exists e. split; [apply elem_of_app; by left | done].
        -- exists (k', observe a v). split; [|done].
           apply elem_of_app. right. left.
        -- exists e. split; [|done]. apply elem_of_app. right. by right.
      * subst kv'. exists (k', observe a v). split; [|done].
        apply elem_of_app. right. left.
Qed.

Lemma groups_of_fold l :
  groups_of l (fold_left group_step l []).
Proof.
  induction l as [|kv l IH] using rev_ind; [apply groups_of_nil|].
  rewrite fold_left_app. simpl. by apply groups_of_step.
Qed.

(* ===================================================================== *)
(** ** Texts and numbers: examples *)
(* ===================================================================== *)

Example float_str_examples :
  float_str (decimal 12345 (-1)) = "1234.5"
  /\ float_str (of_int 2023) = "2023.0"
  /\ float_str (decimal 1 16) = "1e+16"
  /\ float_str (decimal 1 (-5)) = "1e-05"
  /\ float_str (decimal (-15) (-8)) = "-1.5e-07"
  /\ float_str (fadd (decimal 1 (-1)) (decimal 2 (-1))) = "0.30000000000000004"
  /\ float_str (decimal 18165092626404094 (-10)) = "1816509.2626404094"
  /\ float_str (fneg fzero) = "-0.0"
  /\ float_str (inf true) = "-inf"
  /\ float_str nan = "nan".
Proof. repeat split; vm_compute; reflexivity. Qed.

(** The converter keeps 17 digits, leading zeros counted, skips blanks at
    both ends and fails on a value out of range. *)
Example to_numeric_str_examples :
  to_numeric_str "1234.5" = decimal 12345 (-1)
  /\ to_numeric_str "1e+16" = decimal 1 16
  /\ to_numeric_str ".5" = decimal 5 (-1)
  /\ to_numeric_str "-0.0" = fneg fzero
  /\ to_numeric_str (String "009" "12") = of_int 12
  /\ to_numeric_str (String "009" "1234" ++ String "010" "") = of_int 1234
  /\ to_numeric_str "0.30000000000000004" = decimal 3 (-1)
  /\ to_numeric_str "1816509.2626404094" = decimal 18165092626404092 (-10)
  /\ to_numeric_str "1816509.2626404092" = decimal 18165092626404087 (-10)
  /\ to_numeric_str "1e308" = decimal 1 308
  /\ to_numeric_str "1e400" = nan
  /\ to_numeric_str "Infinity" = inf false
  /\ to_numeric_str "abc" = nan
  /\ to_numeric_str "None" = nan
  /\ to_numeric_str "" = nan.
Proof. repeat split; vm_compute; reflexivity. Qed.

Example clean_cell_examples :
  clean_cell (CStr "1,234.5") = CNum (decimal 12345 (-1))
  /\ clean_cell (CStr "abc") = CNum fzero
  /\ clean_cell (CStr "1e400") = CNum fzero
  /\ clean_cell CNone = CNum fzero
  /\ clean_cell (CNum nan) = CNum fzero
  /\ clean_cell (CStr " 1 000 ") = CNum (of_int 1000)
  /\ clean_cell (CNum (fadd (decimal 1 (-1)) (decimal 2 (-1)))) = CNum (decimal 3 (-1)).
Proof. repeat split; vm_compute; reflexivity. Qed.

(* ===================================================================== *)
(** * The claims about [clean_numeric] *)
(* ===================================================================== *)


Lemma clean_numeric_upload_text :
  clean_numeric upload_text numeric_cols
  = Ok (mkDF 2
          (<["Month" := [CStr "Jan"; CStr "Feb"]]>
           (<["Production" := [CNum (decimal 12345 (-1)); CNum (of_int 0)]]>
            (<["AvgPrice" := [CNum (of_int 0); CNum (of_int 5)]]>
             (<["Sellout" := [CNum (inf false); CNum (of_int 1000)]]> ∅))))).
Proof. vm_compute. reflexivity. Qed.



(** C2.  On a frame that lacks two of the numeric columns the loop skips
    them, and [df[numeric_cols]] on line 38 then raises [KeyError]:
    [clean_numeric] does not return. *)
Theorem clean_numeric_raises_on_absent_column :
  clean_loop upload_partial numeric_cols
  = mkDF 1 (<["Month" := [CStr "Jan"]]> (<["Production" := [CNum (of_int 1)]]> ∅))
  /\ clean_numeric upload_partial numeric_cols = Raise (KeyError ["AvgPrice"; "Sellout"]).
Proof. split; vm_compute; reflexivity. Qed.

(** Any frame without one of the requested columns makes it raise. *)
Lemma clean_numeric_absent_column df cols col :
  NoDup cols -> col ∈ cols -> columns df !! col = None ->
  exists missing, clean_numeric df cols = Raise (KeyError missing) /\ col ∈ missing.
Proof.
  intros Hnd Hcol Hnone. unfold clean_numeric.
  destruct (getitem_list_Raise (clean_loop df cols) cols col Hcol) as (m & Hm & Hin).
  { rewrite (clean_loop_lookup _ _ _ Hnd). destruct (decide (col ∈ cols)); [|done].
    by rewrite Hnone. }
  exists m. by rewrite Hm.
Qed.






(** C8.  [clean_numeric] leaves the columns it was not asked to clean, and
    the number of rows, as they were. *)
Theorem clean_numeric_frame df cols df' col :
  clean_numeric df cols = Ok df' -> col ∉ cols ->
  columns df' !! col = columns df !! col /\ nrows df' = nrows df.
Proof.
  intros Hok Hcol.
  destruct (clean_numeric_Ok _ _ _ Hok) as (_ & _ & Hrows & Hlook).
  split; [|done]. rewrite Hlook. by destruct (decide (col ∈ cols)).
Qed.

Lemma clean_numeric_frame_witness :
  columns (mkDF 2
          (<["Month" := [CStr "Jan"; CStr "Feb"]]>
           (<["Production" := [CNum (decimal 12345 (-1)); CNum (of_int 0)]]>
            (<["AvgPrice" := [CNum (of_int 0); CNum (of_int 5)]]>
             (<["Sellout" := [CNum (inf false); CNum (of_int 1000)]]> ∅))))) !! "Month"
  = columns upload_text !! "Month".
Proof.
  apply (clean_numeric_frame upload_text numeric_cols _ "Month" clean_numeric_upload_text).
  apply (bool_decide_unpack _). vm_compute. exact I.
Defined.

(* ===================================================================== *)
(** * The claims about the filter block *)
(* ===================================================================== *)

Lemma rectangular_upload_regions : rectangular upload_regions.
Proof.
  unfold rectangular, upload_regions. simpl.
  repeat (apply map_Forall_insert_2; [reflexivity|]). apply map_Forall_empty.
Qed.

(** A boolean filter and the filter by a property select the same
    entries. *)
Lemma filter_bool_prop {A : Type} (f : A -> bool) (P : A -> Prop)
    `{!forall x, Decision (P x)} (l : list A) :
  (forall x, f x = true <-> P x) -> List.filter f l = filter P l.
Proof.
  intros Hf. induction l as [|x l IH]; [done|].
  simpl. rewrite filter_cons. destruct (f x) eqn:E.
  - rewrite decide_True by (by apply Hf). by rewrite IH.
  - rewrite decide_False; [done|]. intros HP%Hf. congruence.
Qed.

(** The choice of a select box is its "All ..." entry. *)
Lemma cell_eqb_sentinel choice sentinel :
  cell_eqb choice (CStr sentinel) = true <-> choice = CStr sentinel.
Proof.
  destruct choice as [s|x|]; simpl; try done.
  rewrite String.eqb_eq. split; congruence.
Qed.

(** A row passes one [if] of the filter block exactly when it satisfies
    the filter chosen there, if one is. *)
Lemma row_passes_chosen col sentinel choice row :
  row_passes col sentinel choice row = true
  <-> Forall (fun f => satisfies f row) (chosen_filter col sentinel choice).
Proof.
  unfold row_passes, chosen_filter.
  destruct (decide (choice = CStr sentinel)) as [Hs|Hs].
  - apply cell_eqb_sentinel in Hs. rewrite Hs. simpl. split; [constructor|done].
  - destruct (cell_eqb choice (CStr sentinel)) eqn:E.
    { by apply cell_eqb_sentinel in E. }
    simpl. rewrite Forall_singleton. unfold keeps, satisfies. simpl.
    destruct (row !! col) as [c|]; [apply cell_eqb_equal | done].
Qed.

(** C3.  The filter block returns exactly the rows that satisfy every
    filter chosen, in their order.  A row satisfies a filter when its
    value in the filtered column equals the value asked for: the same
    text, character for character, or an equal number, and a text never
    equals a number.  The choice of an "All ..." entry is no filter.  A
    filter on a column the table does not have is ignored: that step of
    the block returns the table as it is, and every row satisfies the
    filter. *)
Theorem apply_filters_rows df region category :
  rectangular df ->
  rows (apply_filters df region category)
  = filter (fun row => Forall (fun f => satisfies f row)
                         (chosen_filters region category))
      (rows df)
  /\ (forall col sentinel choice d,
        has_column d col = false -> filter_by col sentinel choice d = d)
  /\ (forall f row, has_column df f.1 = false -> row ∈ rows df -> satisfies f row).
Proof.
  intros Hrect. split; [|split].
  - unfold apply_filters.
    destruct (rows_filter_by_passes "Region" "All Regions" region df Hrect)
      as [Hrect1 Hrows1].
    destruct (rows_filter_by_passes "Category" "All Categories" category _ Hrect1)
      as [_ Hrows2].
    rewrite Hrows2, Hrows1, filter_filter.
    apply filter_bool_prop. intros row. unfold chosen_filters.
    rewrite Forall_app, andb_true_iff, !row_passes_chosen. done.
  - intros col sentinel choice d Hno. unfold filter_by.
    by rewrite Hno, andb_false_r.
  - intros f row Hno (i & -> & _)%list_elem_of_fmap. unfold satisfies.
    rewrite row_at_lookup. apply has_column_false in Hno. by rewrite Hno.
Qed.

Lemma apply_filters_rows_witness :
  rows (apply_filters upload_regions (CStr "West") (CStr "All Categories"))
  = filter (fun row => Forall (fun f => satisfies f row)
                         (chosen_filters (CStr "West") (CStr "All Categories")))
      (rows upload_regions).
Proof.
  apply (apply_filters_rows upload_regions (CStr "West") (CStr "All Categories")
           rectangular_upload_regions).
Defined.

(** C9.  With the "All ..." entry selected a filter leaves the table as it
    is, also when rows hold that very text in the column; and whatever is
    selected, a result that still has a row with that text in the column is
    the whole table: those rows cannot be singled out.  The "All ..." entry
    is always the first option of its select box. *)
Theorem sentinel_leaves_table df :
  (forall category,
      apply_filters df (CStr "All Regions") category
      = filter_by "Category" "All Categories" category df)
  /\ (forall region,
      apply_filters df region (CStr "All Categories")
      = filter_by "Region" "All Regions" region df)
  /\ apply_filters df (CStr "All Regions") (CStr "All Categories") = df
  /\ (forall col sentinel choice,
      CStr sentinel ∈ get_column (filter_by col sentinel choice df) col ->
      filter_by col sentinel choice df = df)
  /\ (forall opts, regions df = Ok opts -> head opts = Some (CStr "All Regions"))
  /\ (forall opts, categories df = Ok opts -> head opts = Some (CStr "All Categories")).
Proof.
  assert (forall sentinel col opts,
            options sentinel col df = Ok opts -> head opts = Some (CStr sentinel)) as Hopt.
  { intros sentinel col opts. unfold options.
    destruct (has_column df col); [|by intros [= <-]].
    destruct (py_sorted _); [|done]. by intros [= <-]. }
  unfold apply_filters. cbv zeta. split; [|split; [|split; [|split; [|split]]]];
    [| | | |apply Hopt|apply Hopt].
  - intros category. by rewrite filter_by_sentinel.
  - intros region. by rewrite filter_by_sentinel.
  - by rewrite !filter_by_sentinel.
  - intros col sentinel choice. unfold filter_by.
    destruct (cell_eqb choice (CStr sentinel)) eqn:Hact; [done|]. simpl.
    destruct (has_column df col) eqn:Hc; [|done].
    apply has_column_true in Hc as [s Hs].
    unfold get_column. simpl. rewrite lookup_fmap, Hs. simpl.
    intros Hin%elem_of_mask_select_series_eq.
    rewrite cell_eqb_str_sym in Hin. congruence.
Qed.

(** C10.  Filtering a filtered table again, on the same column with the
    same value, returns the filtered table. *)
Theorem filter_idempotent df col sentinel choice :
  filter_by col sentinel choice (filter_by col sentinel choice df)
  = filter_by col sentinel choice df.
Proof.
  unfold filter_by.
  destruct (negb (cell_eqb choice (CStr sentinel))) eqn:Hact;
    cbn [andb]; [|done].
  destruct (has_column df col) eqn:Hc; [|by rewrite Hc].
  apply has_column_true in Hc as [s Hs].
  assert (get_column df col = s) as -> by (unfold get_column; by rewrite Hs).
  set (m := series_eq s choice).
  assert (has_column (getitem_mask df m) col = true) as ->.
  { apply has_column_true. simpl. rewrite lookup_fmap, Hs. by eexists. }
  assert (get_column (getitem_mask df m) col = mask_select m s) as ->.
  { unfold get_column. simpl. by rewrite lookup_fmap, Hs. }
  set (m' := series_eq (mask_select m s) choice).
  pose proof (series_eq_selected s choice) as Hall. fold m m' in Hall.
  assert (length m' = count_true m) as Hlen.
  { unfold m', m, series_eq. rewrite length_map, mask_select_filter.
    by rewrite count_true_map_filter. }
  apply DataFrame_eq; simpl.
  - by rewrite count_true_all_true.
  - intros k. rewrite !lookup_fmap.
    destruct (columns df !! k) as [t|]; [|done]. simpl. f_equal.
    apply mask_select_all_true; [done|].
    rewrite Hlen. apply mask_select_length_le.
Qed.

Example filter_region_west :
  columns (apply_filters upload_regions (CStr "West") (CStr "All Categories"))
  !! "Category" = Some [CStr "A"; CStr "B"].
Proof. reflexivity. Qed.

(* ===================================================================== *)
(** * The claim about the category pricing table *)
(* ===================================================================== *)

Lemma existsb_is_text_numbers (s : Series) :
  Forall (fun c => is_number c = true) s -> existsb is_text s = false.
Proof.
  induction 1 as [|c s Hc _ IH]; [done|]. simpl. rewrite IH.
  by destruct c.
Qed.

Lemma elem_of_combine_l {A B : Type} (l : list A) (l' : list B) x :
  length l = length l' -> x ∈ l -> exists y, (x, y) ∈ combine l l'.
Proof.
  revert l'. induction l as [|a l IH]; intros [|b l'] Hlen Hx; simpl in *;
    try done; [by apply elem_of_nil in Hx|].
  apply elem_of_cons in Hx as [->|Hx].
  - exists b. left.
  - destruct (IH l') as [y Hy]; [lia|done|]. exists y. by right.
Qed.









(** The example of the specification: the means of A and B. *)
Example category_table_example :
  category_table upload_regions
  = Some (Ok [(CStr "A", of_int 15); (CStr "B", of_int 5)]).
Proof. vm_compute. reflexivity. Qed.

(* ===================================================================== *)
(** * The claim about the synthetic sample data *)
(* ===================================================================== *)

Section SyntheticProperties.

Variable rng : Type.
Variable seed : Z -> rng.
Variable randn : rng -> number * rng.

Local Abbreviation sample g := (fst (synthetic_data rng seed randn g)).

Lemma sample_column_lengths g col :
  col ∈ ["Month"; "Year"; "Production"; "AvgPrice"; "Sellout"] ->
  length <$> columns (sample g) !! col = Some 36.
Proof.
  intros H.
  repeat (apply elem_of_cons in H as [->|H];
          [cbv -[fmul fadd]; reflexivity|]).
  by apply elem_of_nil in H.
Qed.

Lemma sample_dom g :
  dom (columns (sample g))
  = list_to_set ["Month"; "Year"; "Production"; "AvgPrice"; "Sellout"].
Proof. cbv -[fmul fadd]. reflexivity. Qed.

(** C6.  The sample data do not depend on the state the generator was in:
    the seed is set first, so every run builds the same table, and leaves
    the generator in the same state.  The table has 36 rows and the
    columns Month, Year, Production, AvgPrice and Sellout, each of 36
    cells: twelve months for 2023, then for 2024, then for 2025. *)
Theorem synthetic_data_deterministic g1 g2 :
  synthetic_data rng seed randn g1 = synthetic_data rng seed randn g2
  /\ nrows (sample g1) = 36
  /\ dom (columns (sample g1))
     = list_to_set ["Month"; "Year"; "Production"; "AvgPrice"; "Sellout"]
  /\ rectangular (sample g1)
  /\ columns (sample g1) !! "Year"
     = Some (replicate 12 (CNum (of_int 2023)) ++ replicate 12 (CNum (of_int 2024))
             ++ replicate 12 (CNum (of_int 2025)))
  /\ columns (sample g1) !! "Month" = Some (map CStr (months ++ months ++ months)).
Proof.
  split; [reflexivity|]. split; [reflexivity|]. split; [apply sample_dom|].
  split; [|split; cbv -[fmul fadd]; reflexivity].
  intros col s Hs.
  assert (col ∈ dom (columns (sample g1))) as Hin by (apply elem_of_dom; by eexists).
  rewrite sample_dom in Hin. apply elem_of_list_to_set in Hin.
  pose proof (sample_column_lengths g1 col Hin) as Hlen.
  rewrite Hs in Hlen. simpl in Hlen. by injection Hlen.
Qed.

End SyntheticProperties.

(* ===================================================================== *)
(** * Further properties of [clean_numeric] *)
(* ===================================================================== *)

Lemma has_column_clean_loop cols df c :
  has_column (clean_loop df cols) c = has_column df c.
Proof.
  unfold clean_loop. revert df. induction cols as [|k cols IH]; intros df; [done|].
  simpl. rewrite IH. unfold has_column. rewrite clean_column_lookup.
  destruct (decide (k = c)); [|done].
  apply bool_decide_ext. by rewrite fmap_is_Some.
Qed.

(** X1.  With distinct names, [clean_numeric] returns a frame when every
    name is a column of the frame; otherwise it raises [KeyError] with the
    names that are not, in the order of the list. *)
Theorem clean_numeric_outcome df cols :
  NoDup cols ->
  match List.filter (fun c => negb (has_column df c)) cols with
  | [] => exists df', clean_numeric df cols = Ok df'
  | missing => clean_numeric df cols = Raise (KeyError missing)
  end.
Proof.
  intros Hnd.
  destruct (List.filter (fun c => negb (has_column df c)) cols) as [|m ms] eqn:Hf.
  - apply clean_numeric_returns; [done|]. intros c Hc.
    apply has_column_true. destruct (has_column df c) eqn:Hh; [done|].
    assert (In c (List.filter (fun c => negb (has_column df c)) cols)) as Hin.
    { apply List.filter_In. split; [by apply list_elem_of_In | by rewrite Hh]. }
    rewrite Hf in Hin. destruct Hin.
  - unfold clean_numeric, getitem_list.
    rewrite (List.filter_ext _ (fun c => negb (has_column df c))), Hf; [done|].
    intros c. by rewrite has_column_clean_loop.
Qed.

Lemma clean_numeric_outcome_witness :
  clean_numeric upload_partial numeric_cols = Raise (KeyError ["AvgPrice"; "Sellout"]).
Proof.
  apply (clean_numeric_outcome upload_partial numeric_cols).
  apply (bool_decide_unpack _). vm_compute. exact I.
Defined.

(** X2.  The frame [clean_numeric] returns has the rows and the columns
    of the frame it was given: the same number of rows, the same labels,
    and one cell per row in every column when that held before. *)
Theorem clean_numeric_shape df cols df' :
  clean_numeric df cols = Ok df' ->
  nrows df' = nrows df
  /\ dom (columns df') = dom (columns df)
  /\ (forall col, length <$> columns df' !! col = length <$> columns df !! col)
  /\ (rectangular df -> rectangular df').
Proof.
  intros Hok.
  destruct (clean_numeric_Ok _ _ _ Hok) as (_ & _ & Hrows & Hlook).
  assert (forall col, length <$> columns df' !! col = length <$> columns df !! col)
    as Hlen.
  { intros col. rewrite Hlook. destruct (decide (col ∈ cols)); [|done].
    destruct (columns df !! col) as [s|]; [|done]. simpl. by rewrite length_map. }
  split; [done|]. split; [|split; [done|]].
  - apply set_eq. intros col. rewrite !elem_of_dom.
    specialize (Hlen col).
    destruct (columns df' !! col), (columns df !! col); try done;
      split; intros [? ?]; done.
  - intros Hrect col s Hs. specialize (Hlen col). rewrite Hs in Hlen.
    destruct (columns df !! col) as [s0|] eqn:Hs0; [|done].
    simpl in Hlen. injection Hlen as ->. rewrite Hrows. by apply (Hrect col).
Qed.

Lemma clean_numeric_shape_witness :
  dom (columns (mkDF 2
          (<["Month" := [CStr "Jan"; CStr "Feb"]]>
           (<["Production" := [CNum (decimal 12345 (-1)); CNum (of_int 0)]]>
            (<["AvgPrice" := [CNum (of_int 0); CNum (of_int 5)]]>
             (<["Sellout" := [CNum (inf false); CNum (of_int 1000)]]> ∅))))))
  = dom (columns upload_text).
Proof.
  apply (clean_numeric_shape upload_text numeric_cols _ clean_numeric_upload_text).
Defined.

(** X4.  The order of the names does not matter: a list with the same
    names in another order gives the same frame. *)
Theorem clean_numeric_permutation df cols cols' df' :
  Permutation cols cols' -> clean_numeric df cols = Ok df' ->
  clean_numeric df cols' = Ok df'.
Proof.
  intros Hperm Hok.
  destruct (clean_numeric_Ok _ _ _ Hok) as (Hnd & Hall & Hrows & Hlook).
  assert (NoDup cols') as Hnd' by (by rewrite <- Hperm).
  destruct (clean_numeric_returns df cols' Hnd') as [df'' Hok'].
  { intros c Hc. apply Hall. by rewrite Hperm. }
  rewrite Hok'. f_equal.
  destruct (clean_numeric_Ok _ _ _ Hok') as (_ & _ & Hrows' & Hlook').
  apply DataFrame_eq; [congruence|]. intros k. rewrite Hlook, Hlook'.
  destruct (decide (k ∈ cols)) as [H|H], (decide (k ∈ cols')) as [H'|H']; try done.
  - exfalso. apply H'. by rewrite <- Hperm.
  - exfalso. apply H. by rewrite Hperm.
Qed.

Lemma clean_numeric_permutation_witness :
  clean_numeric upload_text ["Sellout"; "Production"; "AvgPrice"]
  = Ok (mkDF 2
          (<["Month" := [CStr "Jan"; CStr "Feb"]]>
           (<["Production" := [CNum (decimal 12345 (-1)); CNum (of_int 0)]]>
            (<["AvgPrice" := [CNum (of_int 0); CNum (of_int 5)]]>
             (<["Sellout" := [CNum (inf false); CNum (of_int 1000)]]> ∅))))).
Proof.
  apply (clean_numeric_permutation upload_text numeric_cols).
  - apply (bool_decide_unpack _). vm_compute. exact I.
  - exact clean_numeric_upload_text.
Defined.

(* ===================================================================== *)
(** * The options of the select boxes *)
(* ===================================================================== *)

Lemma cell_eqb_refl a : isna a = false -> cell_eqb a a = true.
Proof. intros H. apply cell_eqb_compare; [done|done|]. by apply cell_compare_refl. Qed.

Lemma cell_eqb_sym a b : cell_eqb a b = cell_eqb b a.
Proof.
  destruct (cell_eqb a b) eqn:E1, (cell_eqb b a) eqn:E2; try done.
  - destruct (cell_eqb_isna _ _ E1) as [Ha Hb].
    apply cell_eqb_compare in E1; [|done|done].
    assert (cell_eqb b a = true); [|congruence].
    apply cell_eqb_compare; [done|done|].
    by rewrite cell_compare_antisym, E1.
  - destruct (cell_eqb_isna _ _ E2) as [Hb Ha].
    apply cell_eqb_compare in E2; [|done|done].
    assert (cell_eqb a b = true); [|congruence].
    apply cell_eqb_compare; [done|done|].
    by rewrite cell_compare_antisym, E2.
Qed.

Lemma cell_eqb_trans a b c :
  cell_eqb a b = true -> cell_eqb b c = true -> cell_eqb a c = true.
Proof.
  intros H1 H2.
  destruct (cell_eqb_isna _ _ H1) as [Ha Hb].
  destruct (cell_eqb_isna _ _ H2) as [_ Hc].
  apply cell_eqb_compare in H1; [|done|done].
  apply cell_eqb_compare in H2; [|done|done].
  apply cell_eqb_compare; [done|done|].
  by rewrite (cell_compare_eq_compat a b c).
Qed.

Lemma cell_eqb_is_text a b : cell_eqb a b = true -> is_text a = is_text b.
Proof. destruct a, b; done. Qed.

Lemma elem_of_dropna c s : c ∈ dropna s <-> c ∈ s /\ isna c = false.
Proof.
  unfold dropna. rewrite !list_elem_of_In, List.filter_In, negb_true_iff. done.
Qed.

(** [unique] keeps cells of the column, pairwise different, and one for
    every cell of the column that is not missing. *)
Lemma unique_spec s :
  Forall (fun c => isna c = false) s ->
  (forall u, u ∈ unique s -> u ∈ s)
  /\ (forall c, c ∈ s -> exists u, u ∈ unique s /\ cell_eqb c u = true)
  /\ ForallOrdPairs (fun a b => cell_eqb a b = false) (unique s).
Proof.
  induction 1 as [|c s Hc _ (IH1 & IH2 & IH3)].
  - repeat split; [by intros ? ?%elem_of_nil | by intros ? ?%elem_of_nil | constructor].
  - simpl. split; [|split].
    + intros u [->|Hu]%elem_of_cons; [left|]. right. apply IH1.
      apply list_elem_of_In, List.filter_In in Hu as [Hu _]. by apply list_elem_of_In.
    + intros d [->|Hd]%elem_of_cons.
      * exists c. split; [left | by apply cell_eqb_refl].
      * destruct (IH2 d Hd) as (u & Hu & Hdu).
        destruct (cell_eqb u c) eqn:Huc.
        -- exists c. split; [left|]. by apply (cell_eqb_trans d u c).
        -- exists u. split; [|done]. right.
           apply list_elem_of_In, List.filter_In. split; [by apply list_elem_of_In|].
           by rewrite Huc.
    + constructor.
      * apply Forall_forall. intros d Hd.
        apply list_elem_of_In, List.filter_In in Hd as [_ Hd].
        apply negb_true_iff in Hd. by rewrite cell_eqb_sym.
      * clear -IH3. induction IH3 as [|a l Ha _ IH]; simpl; [constructor|].
        destruct (negb (cell_eqb a c)); [|done]. constructor; [|done].
        apply Forall_forall. intros d Hd.
        apply list_elem_of_In, List.filter_In in Hd as [Hd _].
        rewrite Forall_forall in Ha. apply Ha. by apply list_elem_of_In.
Qed.

(** Insertion into an ascending list of cells different from the new one. *)
Lemma insert_sorted_spec c l :
  isna c = false -> Forall (fun d => isna d = false) l ->
  Forall (fun d => cell_eqb c d = false) l ->
  StronglySorted key_lt l ->
  StronglySorted key_lt (insert_sorted c l) /\ Permutation (insert_sorted c l) (c :: l).
Proof.
  intros Hc Hl Hne Hs. induction Hs as [|d l Hs IH Hd]; simpl.
  - split; [repeat constructor | done].
  - apply Forall_cons in Hl as [Hdn Hl]. apply Forall_cons in Hne as [Hcd Hne].
    destruct (cell_compare c d) eqn:Hcmp.
    + apply cell_eqb_compare in Hcmp; [congruence|done|done].
    + split; [|done]. constructor; [by constructor|]. constructor; [done|].
      apply Forall_forall. intros x Hx. rewrite Forall_forall in Hd, Hl.
      apply (cell_compare_trans c d x); try done; [by apply Hl | by apply Hd].
    + destruct (IH Hl Hne) as [IHs IHp]. split.
      * constructor; [done|]. rewrite IHp. constructor; [|done].
        unfold key_lt. by rewrite cell_compare_antisym, Hcmp.
      * rewrite IHp. apply perm_swap.
Qed.

Lemma sort_spec l :
  Forall (fun d => isna d = false) l ->
  ForallOrdPairs (fun a b => cell_eqb a b = false) l ->
  StronglySorted key_lt (fold_right insert_sorted [] l)
  /\ Permutation (fold_right insert_sorted [] l) l.
Proof.
  intros Hl Hp. induction Hp as [|c l Hc Hp IH]; simpl.
  - split; [constructor | done].
  - apply Forall_cons in Hl as [Hcn Hl]. destruct (IH Hl) as [IHs IHp].
    destruct (insert_sorted_spec c (fold_right insert_sorted [] l)) as [H1 H2];
      try done.
    + by rewrite IHp.
    + by rewrite IHp.
    + split; [done|]. rewrite H2. by constructor.
Qed.

(** X5.  The options of a select box, when the column exists and they can
    be sorted: the "All ..." entry first, then values of the column, none
    missing, in strictly ascending order, one for every value of the column
    that is not missing. *)
Theorem options_sorted sentinel col df s opts :
  columns df !! col = Some s -> options sentinel col df = Ok opts ->
  exists vals, opts = CStr sentinel :: vals
    /\ StronglySorted key_lt vals
    /\ (forall v, v ∈ vals -> v ∈ s /\ isna v = false)
    /\ (forall c, c ∈ s -> isna c = false ->
          exists v, v ∈ vals /\ cell_eqb c v = true).
Proof.
  intros Hs. unfold options, get_column.
  assert (has_column df col = true) as -> by (apply has_column_true; by eexists).
  rewrite Hs. simpl. unfold py_sorted.
  destruct (forallb is_text _ || forallb _ _); [|done]. simpl.
  intros [= <-]. eexists. split; [done|].
  assert (Forall (fun c => isna c = false) (dropna s)) as Hna.
  { apply Forall_forall. intros c Hc. by apply elem_of_dropna in Hc as [_ ?]. }
  destruct (unique_spec _ Hna) as (Hu1 & Hu2 & Hu3).
  assert (Forall (fun c => isna c = false) (unique (dropna s))) as Hna'.
  { apply Forall_forall. intros c Hc. rewrite Forall_forall in Hna.
    apply Hna. by apply Hu1. }
  destruct (sort_spec _ Hna' Hu3) as [Hsorted Hperm].
  split; [done|]. split.
  - intros v Hv. rewrite Hperm in Hv. apply Hu1 in Hv. by apply elem_of_dropna.
  - intros c Hc Hcn. destruct (Hu2 c) as (u & Hu & Hcu); [by apply elem_of_dropna|].
    exists u. split; [by rewrite Hperm | done].
Qed.

Lemma options_sorted_witness :
  exists vals, [CStr "All Regions"; CStr "East"; CStr "West"] = CStr "All Regions" :: vals
    /\ StronglySorted key_lt vals.
Proof.
  destruct (options_sorted "All Regions" "Region" upload_regions
              [CStr "West"; CStr "East"; CStr "West"]
              [CStr "All Regions"; CStr "East"; CStr "West"] eq_refl eq_refl)
    as (vals & H1 & H2 & _).
  exists vals. split; [exact H1 | exact H2].
Defined.

(** Whether the values to sort are all texts, or all numbers, read off
    the column. *)
Lemma unique_dropna_kinds s :
  existsb is_text s = negb (forallb (fun c => negb (is_text c)) (unique (dropna s)))
  /\ existsb is_number s = negb (forallb is_text (unique (dropna s))).
Proof.
  assert (Forall (fun c => isna c = false) (dropna s)) as Hna.
  { apply Forall_forall. intros c Hc. by apply elem_of_dropna in Hc as [_ ?]. }
  destruct (unique_spec _ Hna) as (Hu1 & Hu2 & _). split.
  - apply eq_true_iff_eq. rewrite negb_true_iff, existsb_exists.
    rewrite <- not_true_iff_false, forallb_forall. split.
    + intros (c & Hc & Ht) Hall.
      destruct (Hu2 c) as (u & Hu & Hcu).
      { apply elem_of_dropna. split; [by apply list_elem_of_In|]. by destruct c. }
      specialize (Hall u (proj1 (list_elem_of_In _ _) Hu)).
      rewrite <- (cell_eqb_is_text _ _ Hcu), Ht in Hall. done.
    + intros Hnall.
      destruct (existsb is_text (unique (dropna s))) eqn:E.
      * apply existsb_exists in E as (u & Hu & Ht). exists u. split; [|done].
        apply list_elem_of_In, Hu1, elem_of_dropna in Hu as [Hu _].
        by apply list_elem_of_In.
      * exfalso. apply Hnall. intros u Hu.
        destruct (is_text u) eqn:Ht; [|done].
        assert (existsb is_text (unique (dropna s)) = true); [|congruence].
        apply existsb_exists. by exists u.
  - apply eq_true_iff_eq. rewrite negb_true_iff, existsb_exists.
    rewrite <- not_true_iff_false, forallb_forall. split.
    + intros (c & Hc & Ht) Hall.
      destruct (Hu2 c) as (u & Hu & Hcu).
      { apply elem_of_dropna. split; [by apply list_elem_of_In|].
        destruct c as [|x|]; try done. simpl in *. by apply negb_true_iff. }
      specialize (Hall u (proj1 (list_elem_of_In _ _) Hu)).
      rewrite <- (cell_eqb_is_text _ _ Hcu) in Hall. by destruct c.
    + intros Hnall.
      destruct (forallb is_text (unique (dropna s))) eqn:E.
      * exfalso. apply Hnall. by apply forallb_forall.
      * assert (exists u, In u (unique (dropna s)) /\ is_text u = false) as (u & Hu & Ht).
        { clear -E. induction (unique (dropna s)) as [|a l IH]; [done|].
          simpl in E. destruct (is_text a) eqn:Ha.
          - destruct (IH E) as (u & Hu & Ht). exists u. split; [by right | done].
          - exists a. split; [by left | done]. }
        exists u. apply list_elem_of_In, Hu1, elem_of_dropna in Hu as [Hu Hn].
        split; [by apply list_elem_of_In|].
        destruct u as [|x|]; try done. simpl in *. by rewrite Hn.
Qed.

(** X6.  The options cannot be built exactly when the column holds both a
    text and a number: sorting them raises [TypeError].  Without the
    column the only option is the "All ..." entry. *)
Theorem options_outcome sentinel col df :
  match columns df !! col with
  | None => options sentinel col df = Ok [CStr sentinel]
  | Some s =>
      if existsb is_text s && existsb is_number s
      then options sentinel col df = Raise TypeError
      else exists opts, options sentinel col df = Ok opts
  end.
Proof.
  unfold options, get_column.
  destruct (columns df !! col) as [s|] eqn:Hs.
  2:{ apply has_column_false in Hs. by rewrite Hs. }
  assert (has_column df col = true) as -> by (apply has_column_true; by eexists).
  simpl. unfold py_sorted.
  destruct (unique_dropna_kinds s) as [-> ->].
  destruct (forallb is_text _), (forallb (fun c => negb (is_text c)) _); simpl; eauto.
Qed.

Example options_mixed_column :
  options "All Regions" "Region"
    (mkDF 2 (<["Region" := [CStr "West"; CNum (of_int 7)]]> ∅))
  = Raise TypeError.
Proof. reflexivity. Qed.

(* ===================================================================== *)
(** * Further properties of the filter block *)
(* ===================================================================== *)

Lemma length_rows df : length (rows df) = nrows df.
Proof. unfold rows. by rewrite length_map, length_seq. Qed.

Lemma dom_filter_by col sentinel choice df :
  dom (columns (filter_by col sentinel choice df)) = dom (columns df).
Proof.
  unfold filter_by. destruct (_ && _); [|done]. simpl. apply dom_fmap_L.
Qed.

(** A column of a rectangular frame is read off its rows. *)
Lemma column_of_rows df col s :
  rectangular df -> columns df !! col = Some s ->
  s = map (fun r : gmap string cell => default CNone (r !! col)) (rows df).
Proof.
  intros Hrect Hs. apply list_eq. intros i.
  unfold rows. rewrite List.map_map, list_lookup_fmap.
  destruct (decide (i < nrows df)) as [Hlt|Hge].
  - rewrite lookup_seq_lt by done. simpl. rewrite row_at_lookup, Hs. simpl.
    destruct (s !! i) as [c|] eqn:Hi; [done|].
    apply lookup_ge_None in Hi. rewrite (Hrect col s Hs) in Hi. lia.
  - rewrite lookup_seq_ge by lia. simpl. apply lookup_ge_None.
    rewrite (Hrect col s Hs). lia.
Qed.

(** Two rectangular frames with the same labels and the same rows are the
    same frame. *)
Lemma frame_of_rows a b :
  rectangular a -> rectangular b ->
  dom (columns a) = dom (columns b) -> rows a = rows b -> a = b.
Proof.
  intros Ha Hb Hdom Hrows. apply DataFrame_eq.
  - by rewrite <- !length_rows, Hrows.
  - intros k. destruct (columns a !! k) as [s|] eqn:Hs.
    + assert (k ∈ dom (columns b)) as Hk by (rewrite <- Hdom; apply elem_of_dom; by eexists).
      apply elem_of_dom in Hk as [t Ht]. rewrite Ht. f_equal.
      rewrite (column_of_rows a k s Ha Hs), (column_of_rows b k t Hb Ht).
      by rewrite Hrows.
    + apply not_elem_of_dom in Hs. rewrite Hdom in Hs.
      apply not_elem_of_dom in Hs. by rewrite Hs.
Qed.

(** X7.  The two filters can be applied in either order. *)
Theorem filters_commute df col1 sentinel1 choice1 col2 sentinel2 choice2 :
  rectangular df ->
  filter_by col2 sentinel2 choice2 (filter_by col1 sentinel1 choice1 df)
  = filter_by col1 sentinel1 choice1 (filter_by col2 sentinel2 choice2 df).
Proof.
  intros Hrect.
  destruct (rows_filter_by_passes col1 sentinel1 choice1 df Hrect) as [Hr1 Hrows1].
  destruct (rows_filter_by_passes col2 sentinel2 choice2 df Hrect) as [Hr2 Hrows2].
  destruct (rows_filter_by_passes col2 sentinel2 choice2 _ Hr1) as [Hr12 Hrows12].
  destruct (rows_filter_by_passes col1 sentinel1 choice1 _ Hr2) as [Hr21 Hrows21].
  apply frame_of_rows; try done.
  - by rewrite !dom_filter_by.
  - rewrite Hrows12, Hrows21, Hrows1, Hrows2, !filter_filter.
    apply List.filter_ext. intros r. apply andb_comm.
Qed.

Lemma filters_commute_witness :
  filter_by "Category" "All Categories" (CStr "A")
    (filter_by "Region" "All Regions" (CStr "West") upload_regions)
  = filter_by "Region" "All Regions" (CStr "West")
      (filter_by "Category" "All Categories" (CStr "A") upload_regions).
Proof. apply (filters_commute upload_regions), rectangular_upload_regions. Defined.

(** X8.  A filter leaves exactly the rows that pass, in their order, and
    keeps the shape of the table: the same labels, one cell per row in
    every column, as many rows as pass and so no more than before; and
    after a filter on a value every cell left in the filtered column
    equals that value. *)
Theorem filter_by_shape df col sentinel choice :
  rectangular df ->
  rectangular (filter_by col sentinel choice df)
  /\ rows (filter_by col sentinel choice df)
     = List.filter (row_passes col sentinel choice) (rows df)
  /\ dom (columns (filter_by col sentinel choice df)) = dom (columns df)
  /\ nrows (filter_by col sentinel choice df)
     = length (List.filter (row_passes col sentinel choice) (rows df))
  /\ nrows (filter_by col sentinel choice df) <= nrows df
  /\ (cell_eqb choice (CStr sentinel) = false ->
      Forall (fun c => cell_eqb c choice = true)
        (get_column (filter_by col sentinel choice df) col)).
Proof.
  intros Hrect.
  destruct (rows_filter_by_passes col sentinel choice df Hrect) as [Hr Hrows].
  split; [done|]. split; [done|]. split; [apply dom_filter_by|].
  assert (nrows (filter_by col sentinel choice df)
          = length (List.filter (row_passes col sentinel choice) (rows df))) as Hn.
  { by rewrite <- Hrows, length_rows. }
  split; [done|]. split.
  - rewrite Hn, <- (length_rows df). apply List.filter_length_le.
  - intros Hact. unfold filter_by, get_column. rewrite Hact. simpl.
    destruct (has_column df col) eqn:Hc.
    + apply has_column_true in Hc as [s Hs]. simpl. rewrite lookup_fmap, Hs. simpl.
      apply Forall_forall. intros c Hin.
      by apply elem_of_mask_select_series_eq in Hin.
    + apply has_column_false in Hc. rewrite Hc. constructor.
Qed.

Lemma filter_by_shape_witness :
  rows (filter_by "Region" "All Regions" (CStr "West") upload_regions)
  = List.filter (row_passes "Region" "All Regions" (CStr "West")) (rows upload_regions)
  /\ nrows (filter_by "Region" "All Regions" (CStr "West") upload_regions)
     <= nrows upload_regions.
Proof.
  destruct (filter_by_shape upload_regions "Region" "All Regions" (CStr "West")
              rectangular_upload_regions) as (_ & H1 & _ & _ & H2 & _).
  split; [exact H1 | exact H2].
Defined.




(* ===================================================================== *)
(** * The category table after a filter *)
(* ===================================================================== *)



Lemma clean_numeric_has_column df cols df' c :
  clean_numeric df cols = Ok df' -> has_column df' c = has_column df c.
Proof.
  intros Hok. destruct (clean_numeric_Ok _ _ _ Hok) as (_ & _ & _ & Hlook).
  unfold has_column. rewrite Hlook. destruct (decide (c ∈ cols)); [|done].
  apply bool_decide_ext. by rewrite fmap_is_Some.
Qed.

Lemma groupby_mean_Ok df key val keys vals :
  columns df !! key = Some keys -> columns df !! val = Some vals ->
  Forall (fun c => is_number c = true) vals ->
  groupby_mean df key val
  = Ok (map (fun g : cell * accumulator => (g.1, finish g.2))
          (group_rows keys vals)).
Proof.
  intros Hk Hv Hnum. unfold groupby_mean.
  assert (has_column df key = true) as Hck by (apply has_column_true; by eexists).
  assert (has_column df val = true) as Hcv by (apply has_column_true; by eexists).
  simpl. rewrite Hck, Hcv. simpl. unfold get_column. rewrite Hk, Hv. simpl.
  by rewrite (existsb_is_text_numbers vals Hnum).
Qed.

Lemma mask_select_Forall {A : Type} (P : A -> Prop) mask (l : list A) :
  Forall P l -> Forall P (mask_select mask l).
Proof.
  intros H. revert mask. induction H as [|x l Hx _ IH]; intros [|b mask]; simpl;
    try constructor.
  destruct b; [constructor|]; auto.
Qed.

(** X10.  After a filter on a category, the category table has at most
    one row, and its key is that category. *)
Theorem category_table_after_category_filter df keys vals choice :
  rectangular df ->
  columns df !! "Category" = Some keys -> columns df !! "AvgPrice" = Some vals ->
  Forall (fun c => is_number c = true) vals ->
  cell_eqb choice (CStr "All Categories") = false ->
  exists out,
    category_table (filter_by "Category" "All Categories" choice df) = Some (Ok out)
    /\ length out <= 1
    /\ (forall k mu, (k, mu) ∈ out -> cell_eqb k choice = true)
    /\ (out = [] <-> Forall (fun k => cell_eqb k choice = false) keys).
Proof.
  intros Hrect Hk Hv Hnum Hact.
  set (df' := filter_by "Category" "All Categories" choice df).
  set (m := series_eq keys choice).
  assert (columns df' !! "Category" = Some (mask_select m keys)
          /\ columns df' !! "AvgPrice" = Some (mask_select m vals)) as [Hk' Hv'].
  { unfold df', filter_by. rewrite Hact. simpl.
    assert (has_column df "Category" = true) as -> by (apply has_column_true; by eexists).
    unfold get_column. rewrite Hk. simpl. by rewrite !lookup_fmap, Hk, Hv. }
  unfold category_table.
  assert (has_column df' "Category" = true) as -> by (apply has_column_true; by eexists).
  assert (has_column df' "AvgPrice" = true) as -> by (apply has_column_true; by eexists).
  simpl. rewrite (groupby_mean_Ok df' _ _ _ _ Hk' Hv')
    by (by apply mask_select_Forall).
  eexists. split; [done|].
  set (l := combine (mask_select m keys) (mask_select m vals)).
  unfold group_rows. fold l.
  destruct (groups_of_fold l) as (Hsort & Hent & Hcov).
  set (G := fold_left group_step l []) in *.
  assert (forall e, e ∈ G -> cell_eqb e.1 choice = true) as Hkeys.
  { intros e He. rewrite Forall_forall in Hent. destruct (Hent e He) as (_ & Hin & _).
    apply list_elem_of_fmap in Hin as ([k0 v0] & -> & H0).
    apply list_elem_of_In, in_combine_l, list_elem_of_In in H0.
    by apply elem_of_mask_select_series_eq in H0. }
  split; [|split].
  - rewrite length_map. destruct G as [|e1 [|e2 G]]; simpl; try lia. exfalso.
    simpl in Hsort. apply StronglySorted_cons in Hsort as [Hlt _].
    apply Forall_cons in Hlt as [Hlt _]. unfold key_lt in Hlt.
    pose proof (Hkeys e1 ltac:(left)) as H1.
    pose proof (Hkeys e2 ltac:(right; left)) as H2.
    rewrite cell_eqb_sym in H2.
    pose proof (cell_eqb_trans _ _ _ H1 H2) as H12.
    destruct (cell_eqb_isna _ _ H12) as [Hn1 Hn2].
    apply cell_eqb_compare in H12; [congruence|done|done].
  - intros k mu (e & [= -> ->] & He)%list_elem_of_fmap. by apply Hkeys.
  - split.
    + intros Hnil. apply Forall_forall. intros k Hkin.
      destruct (cell_eqb k choice) eqn:E; [|done]. exfalso.
      assert (length keys = length vals) as Hlen.
      { by rewrite (Hrect _ _ Hk), (Hrect _ _ Hv). }
      assert (k ∈ mask_select m keys) as Hkm.
      { unfold m, series_eq. rewrite mask_select_filter.
        apply list_elem_of_In, List.filter_In. split; [by apply list_elem_of_In|done]. }
      destruct (elem_of_combine_l (mask_select m keys) (mask_select m vals) k)
        as [v Hkv]; [|done|].
      { rewrite !mask_select_length; [done| |];
          unfold m, series_eq; rewrite length_map; done. }
      destruct (cell_eqb_isna _ _ E) as [Hna _].
      destruct (Hcov (k, v) Hkv Hna) as (e & He & _).
      destruct G; [by apply elem_of_nil in He | done].
    + intros Hall. destruct G as [|e G]; [done|]. exfalso.
      rewrite Forall_forall in Hent. destruct (Hent e ltac:(left)) as (_ & Hin & _).
      apply list_elem_of_fmap in Hin as ([k0 v0] & Hk0 & H0). simpl in Hk0.
      apply list_elem_of_In, in_combine_l, list_elem_of_In in H0.
      pose proof (elem_of_mask_select_series_eq _ _ _ H0) as Heq.
      unfold m, series_eq in H0. rewrite mask_select_filter in H0.
      apply list_elem_of_In, List.filter_In in H0 as [H0 _].
      rewrite Forall_forall in Hall.
      rewrite (Hall k0) in Heq; [done | by apply list_elem_of_In].
Qed.

Lemma category_table_after_category_filter_witness :
  exists out,
    category_table (filter_by "Category" "All Categories" (CStr "A") upload_regions)
    = Some (Ok out)
    /\ length out <= 1.
Proof.
  destruct (category_table_after_category_filter upload_regions
              [CStr "A"; CStr "A"; CStr "B"]
              [CNum (of_int 10); CNum (of_int 20); CNum (of_int 5)] (CStr "A")
              rectangular_upload_regions eq_refl eq_refl)
    as (out & H1 & H2 & _).
  - repeat constructor.
  - reflexivity.
  - exists out. split; [exact H1 | exact H2].
Defined.

(* ===================================================================== *)
(** * The whole script *)
(* ===================================================================== *)


Lemma options_cases sentinel col df :
  options sentinel col df
  = if has_column df col then
      if mixed_column df col then Raise TypeError
      else Ok (CStr sentinel
                 :: fold_right insert_sorted [] (unique (dropna (get_column df col))))
    else Ok [CStr sentinel].
Proof.
  unfold options, mixed_column, get_column.
  destruct (has_column df col) eqn:Hc; [|done].
  apply has_column_true in Hc as [s Hs]. rewrite Hs. simpl. unfold py_sorted.
  destruct (unique_dropna_kinds s) as [-> ->].
  by destruct (forallb is_text _), (forallb (fun c => negb (is_text c)) _).
Qed.

Lemma NoDup_numeric_cols : NoDup numeric_cols.
Proof. apply (bool_decide_unpack _). vm_compute. exact I. Qed.



Lemma clean_numeric_rectangular df cols df' :
  rectangular df -> clean_numeric df cols = Ok df' -> rectangular df'.
Proof.
  intros Hrect Hok. destruct (clean_numeric_Ok _ _ _ Hok) as (_ & _ & Hrows & Hlook).
  intros col s Hs. rewrite Hlook in Hs. rewrite Hrows.
  destruct (decide (col ∈ cols)); [|by apply (Hrect col)].
  destruct (columns df !! col) as [s0|] eqn:Hs0; [|done].
  simpl in Hs. injection Hs as <-. rewrite length_map. by apply (Hrect col).
Qed.

Lemma filter_by_absent col sentinel choice df :
  has_column df col = false -> filter_by col sentinel choice df = df.
Proof. intros H. unfold filter_by. by rewrite H, andb_false_r. Qed.


Section ScriptProperties.

Variable rng : Type.
Variable seed : Z -> rng.
Variable randn : rng -> number * rng.
Variable file : Type.
Variable read_csv : file -> result DataFrame.

Local Abbreviation run := (script rng seed randn file read_csv).
Local Abbreviation sample_frame g := (fst (synthetic_data rng seed randn g)).


(** X12.  A run on the sample data, whatever the generator draws and
    whatever is selected: it does not raise; the upload, if any, is not
    read; the frame has the 36 rows and the five columns of the sample, its
    three numeric columns hold numbers; the select boxes offer nothing but
    the "All ..." entries and there is no category table. *)
Theorem script_sample f use_sample region_index category_index g :
  run None use_sample region_index category_index g
  = run (Some f) true region_index category_index g
  /\ exists df,
       run None use_sample region_index category_index g = Ok (df, None)
       /\ clean_numeric (sample_frame g) numeric_cols = Ok df
       /\ nrows df = 36
       /\ rectangular df
       /\ dom (columns df)
          = list_to_set ["Month"; "Year"; "Production"; "AvgPrice"; "Sellout"]
       /\ regions df = Ok [CStr "All Regions"]
       /\ categories df = Ok [CStr "All Categories"]
       /\ forall col, col ∈ numeric_cols ->
            exists s, columns df !! col = Some s
              /\ Forall (fun c => is_number c = true) s.
Proof.
  split; [reflexivity|].
  assert (forall col, col ∈ ["Month"; "Year"; "Production"; "AvgPrice"; "Sellout"] ->
            is_Some (columns (sample_frame g) !! col)) as Hsome.
  { intros col Hcol. pose proof (sample_column_lengths rng seed randn g col Hcol) as H.
    destruct (columns (sample_frame g) !! col); [by eexists | done]. }
  destruct (clean_numeric_returns (sample_frame g) numeric_cols NoDup_numeric_cols)
    as [df Hok].
  { intros c Hc. apply Hsome. unfold numeric_cols in Hc.
    repeat (apply elem_of_cons in Hc as [->|Hc];
            [apply (bool_decide_unpack _); vm_compute; exact I|]).
    by apply elem_of_nil in Hc. }
  destruct (clean_numeric_Ok _ _ _ Hok) as (_ & Hall & Hrows & Hlook).
  assert (dom (columns df)
          = list_to_set ["Month"; "Year"; "Production"; "AvgPrice"; "Sellout"]) as Hdom.
  { rewrite <- (sample_dom rng seed randn g).
    apply set_eq. intros col. rewrite !elem_of_dom, <- !has_column_true.
    by rewrite (clean_numeric_has_column _ _ _ _ Hok). }
  assert (forall col,
            col ∉ ["Month"; "Year"; "Production"; "AvgPrice"; "Sellout"] ->
            has_column df col = false) as Habsent.
  { intros col Hcol. apply has_column_false, not_elem_of_dom.
    rewrite Hdom. by rewrite elem_of_list_to_set. }
  assert (has_column df "Region" = false) as Hreg.
  { apply Habsent. apply (bool_decide_unpack _). vm_compute. exact I. }
  assert (has_column df "Category" = false) as Hcat.
  { apply Habsent. apply (bool_decide_unpack _). vm_compute. exact I. }
  assert (rectangular (sample_frame g)) as Hrect.
  { intros col s Hs.
    assert (col ∈ dom (columns (sample_frame g))) as Hin
      by (apply elem_of_dom; by eexists).
    rewrite (sample_dom rng seed randn g) in Hin. apply elem_of_list_to_set in Hin.
    pose proof (sample_column_lengths rng seed randn g col Hin) as Hlen.
    rewrite Hs in Hlen. simpl in Hlen. by injection Hlen. }
  assert (regions df = Ok [CStr "All Regions"]) as Hregions.
  { unfold regions. by rewrite options_cases, Hreg. }
  assert (categories df = Ok [CStr "All Categories"]) as Hcategories.
  { unfold categories. by rewrite options_cases, Hcat. }
  exists df. split; [|split; [done|split; [|split; [|split; [done|split; [done|split; [done|]]]]]]].
  - unfold script, load_data. cbn [bind fst]. rewrite Hok. cbn [bind].
    rewrite Hregions, Hcategories. cbn [bind]. unfold apply_filters.
    rewrite (filter_by_absent "Region") by done.
    rewrite (filter_by_absent "Category") by done.
    unfold category_table. by rewrite Hcat.
  - by rewrite Hrows.
  - by apply (clean_numeric_rectangular _ _ _ Hrect Hok).
  - intros col Hcol. destruct (Hall col Hcol) as [s0 Hs0].
    exists (map clean_cell s0). split.
    + rewrite Hlook, Hs0. by destruct (decide (col ∈ numeric_cols)).
    + apply Forall_forall. intros c (c0 & -> & _)%list_elem_of_fmap.
      destruct (clean_cell_number c0) as (y & -> & Hn). simpl. by rewrite Hn.
Qed.

End ScriptProperties.

Section DrawOrder.

Variable rng : Type.
Variable seed : Z -> rng.
Variable randn : rng -> number * rng.

Local Abbreviation monthly_values := (monthly rng seed randn).

(** X13.  The sample data use 108 draws, year by year and within a year
    column by column: the twelve months of Production, then of AvgPrice,
    then of Sellout.  Each value is [base * (1 + draw * noise)] with the
    base of its year and column. *)
Theorem synthetic_data_draw_order g :
  snd (synthetic_data rng seed randn g) = state_after rng seed randn 108
  /\ columns (fst (synthetic_data rng seed randn g)) !! "Production"
     = Some (monthly_values (of_int 900000) (decimal 15 (-2)) 0
             ++ monthly_values (of_int 950000) (decimal 15 (-2)) 36
             ++ monthly_values (of_int 1100000) (decimal 15 (-2)) 72)
  /\ columns (fst (synthetic_data rng seed randn g)) !! "AvgPrice"
     = Some (monthly_values (of_int 65) (decimal 5 (-2)) 12
             ++ monthly_values (of_int 67) (decimal 5 (-2)) 48
             ++ monthly_values (of_int 72) (decimal 5 (-2)) 84)
  /\ columns (fst (synthetic_data rng seed randn g)) !! "Sellout"
     = Some (monthly_values (of_int 1000000) (decimal 15 (-2)) 24
             ++ monthly_values (of_int 1200000) (decimal 15 (-2)) 60
             ++ monthly_values (of_int 1450000) (decimal 15 (-2)) 96).
Proof.
  split; [|split; [|split]]; cbv -[fmul fadd]; reflexivity.
Qed.

End DrawOrder.


(** A run on an upload: the production figures are read with their
    commas, the region North is selected, and the table has the means of
    the categories left. *)
Example script_upload_north :
  script unit (fun _ => tt) (fun g => (of_int 0, g)) DataFrame Ok
    (Some upload_full) false 1 0 tt
  = Ok (mkDF 2
          (<["Month" := [CStr "Jan"; CStr "Feb"]]>
           (<["Region" := [CStr "North"; CStr "North"]]>
            (<["Category" := [CStr "A"; CStr "B"]]>
             (<["Production" := [CNum (of_int 1200); CNum (of_int 1500)]]>
              (<["AvgPrice" := [CNum (of_int 10); CNum (of_int 5)]]>
               (<["Sellout" := [CNum (of_int 7); CNum (of_int 9)]]> ∅)))))),
        Some [(CStr "A", of_int 10); (CStr "B", of_int 5)]).
Proof. vm_compute. reflexivity. Qed.
